(** * Inkcore-AI: memory service, style analyzer and generation routes

    A shallow embedding of
      - [app/services/memory.py]   (embedding fallback, save / query / delete),
      - [app/services/analyzer.py] (style profile),
      - [app/routes/generate.py]   (blog and social routes, history cache),
    and the properties the specification states about them.

    Conventions.
      - A Python [str] is a Rocq [string], read as its UTF-8 byte sequence,
        so [text.encode("utf-8")] lists the bytes of the string.
      - Python [dict]s keyed by strings are [gmap string _]; a dict whose
        order matters ([Counter], the result dictionaries) is an
        association list.
      - numpy's float32 values are real numbers; its rounding operations
        are the class [memory.Numpy], with exact arithmetic as the instance
        a statement uses unless it names another.
      - Exceptions are values of [exn]; code that can raise lives in the
        state-and-error monad [M] over the process state [World]. *)

From Stdlib Require Import ZArith List String Ascii DecimalString Reals Lra Lia QArith.
From Stdlib Require Import Sorted Permutation.
From stdpp Require Import base option list strings gmap.

Import ListNotations.
Local Open Scope Z_scope.
Local Open Scope string_scope.

(* ===================================================================== *)
(** * hashlib.sha256 (FIPS 180-4) on byte lists *)
(* ===================================================================== *)

Module Sha256.

(** 32-bit words are integers in [0, 2^32); bytes are integers in [0, 256). *)
Definition wrap32 (x : Z) : Z := x mod 4294967296.
Definition add32 (x y : Z) : Z := wrap32 (x + y).
Definition rotr (n x : Z) : Z :=
  Z.lor (Z.shiftr x n) (wrap32 (Z.shiftl x (32 - n))).
Definition not32 (x : Z) : Z := 4294967295 - x.

Definition ch (x y z : Z) : Z := Z.lxor (Z.land x y) (Z.land (not32 x) z).
Definition maj (x y z : Z) : Z :=
  Z.lxor (Z.lxor (Z.land x y) (Z.land x z)) (Z.land y z).
Definition bsig0 (x : Z) : Z := Z.lxor (Z.lxor (rotr 2 x) (rotr 13 x)) (rotr 22 x).
Definition bsig1 (x : Z) : Z := Z.lxor (Z.lxor (rotr 6 x) (rotr 11 x)) (rotr 25 x).
Definition ssig0 (x : Z) : Z := Z.lxor (Z.lxor (rotr 7 x) (rotr 18 x)) (Z.shiftr x 3).
Definition ssig1 (x : Z) : Z := Z.lxor (Z.lxor (rotr 17 x) (rotr 19 x)) (Z.shiftr x 10).

(** Round constants, in decimal. *)
Definition round_constants : list Z :=
[ 1116352408; 1899447441; 3049323471; 3921009573; 961987163; 1508970993;
  2453635748; 2870763221; 3624381080; 310598401; 607225278; 1426881987;
  1925078388; 2162078206; 2614888103; 3248222580; 3835390401; 4022224774;
  264347078; 604807628; 770255983; 1249150122; 1555081692; 1996064986;
  2554220882; 2821834349; 2952996808; 3210313671; 3336571891; 3584528711;
  113926993; 338241895; 666307205; 773529912; 1294757372; 1396182291;
  1695183700; 1986661051; 2177026350; 2456956037; 2730485921; 2820302411;
  3259730800; 3345764771; 3516065817; 3600352804; 4094571909; 275423344;
  430227734; 506948616; 659060556; 883997877; 958139571; 1322822218;
  1537002063; 1747873779; 1955562222; 2024104815; 2227730452; 2361852424;
  2428436474; 2756734187; 3204031479; 3329325298 ].

(** The chaining value: eight words. *)
Record state := State { sa : Z; sb : Z; sc : Z; sd : Z; se : Z; sf : Z; sg : Z; sh : Z }.

Definition initial : state :=
  State 1779033703 3144134277 1013904242 2773480762
        1359893119 2600822924 528734635 1541459225.

(** Padding: the byte 0x80, zero bytes up to 56 mod 64, then the bit length
    as 8 big-endian bytes. *)
Fixpoint be_bytes (n : nat) (x : Z) : list Z :=
  match n with
  | O => []
  | S n' => (Z.shiftr x (8 * Z.of_nat n')) mod 256 :: be_bytes n' x
  end.

Definition pad (msg : list Z) : list Z :=
  let len := Z.of_nat (length msg) in
  let zeros := Z.to_nat ((55 - len) mod 64) in
  msg ++ 128 :: repeat 0 zeros ++ be_bytes 8 (8 * len).

Fixpoint be_words (bs : list Z) : list Z :=
  match bs with
  | b0 :: b1 :: b2 :: b3 :: rest =>
      (b0 * 16777216 + b1 * 65536 + b2 * 256 + b3) :: be_words rest
  | _ => []
  end.

(** Message schedule: the sixteen block words extended to sixty-four. *)
Fixpoint extend (n : nat) (w : list Z) : list Z :=
  match n with
  | O => w
  | S n' =>
      let t := length w in
      let at_ k := nth (t - k) w 0 in
      extend n' (w ++ [add32 (add32 (ssig1 (at_ 2%nat)) (at_ 7%nat))
                             (add32 (ssig0 (at_ 15%nat)) (at_ 16%nat))])
  end.

Definition round (s : state) (kw : Z * Z) : state :=
  let '(k, w) := kw in
  let t1 := add32 (add32 (add32 (sh s) (bsig1 (se s))) (ch (se s) (sf s) (sg s)))
                  (add32 k w) in
  let t2 := add32 (bsig0 (sa s)) (maj (sa s) (sb s) (sc s)) in
  State (add32 t1 t2) (sa s) (sb s) (sc s) (add32 (sd s) t1) (se s) (sf s) (sg s).

Definition compress (s : state) (block : list Z) : state :=
  let w := extend 48 (be_words block) in
  let r := fold_left round (combine round_constants w) s in
  State (add32 (sa s) (sa r)) (add32 (sb s) (sb r)) (add32 (sc s) (sc r))
        (add32 (sd s) (sd r)) (add32 (se s) (se r)) (add32 (sf s) (sf r))
        (add32 (sg s) (sg r)) (add32 (sh s) (sh r)).

(** The 64-byte blocks of a padded message ([fuel] bounds their number). *)
Fixpoint blocks (fuel : nat) (bs : list Z) : list (list Z) :=
  match fuel, bs with
  | S fuel', _ :: _ => firstn 64 bs :: blocks fuel' (skipn 64 bs)
  | _, _ => []
  end.

Definition state_bytes (s : state) : list Z :=
  be_bytes 4 (sa s) ++ be_bytes 4 (sb s) ++ be_bytes 4 (sc s) ++ be_bytes 4 (sd s) ++
  be_bytes 4 (se s) ++ be_bytes 4 (sf s) ++ be_bytes 4 (sg s) ++ be_bytes 4 (sh s).

(** [hashlib.sha256(msg).digest()] *)
Definition digest (msg : list Z) : list Z :=
  let p := pad msg in
  state_bytes (fold_left compress (blocks (length p) p) initial).

End Sha256.

(** [text.encode("utf-8")] *)
Definition encode_utf8 (text : string) : list Z :=
  map (fun c => Z.of_N (N_of_ascii c)) (list_ascii_of_string text).

(* ===================================================================== *)
(** * Exceptions, results and the process state *)
(* ===================================================================== *)

Inductive exn :=
| GroqClientError (msg : string)      (* groq_client.GroqClientError *)
| ChromaError (msg : string)          (* any exception raised by chromadb *)
| IndexError (msg : string)
| KeyError (key : string)
| TypeError (msg : string)
| HTTPException (status_code : Z) (detail : string).

(** [str(e)] *)
Definition exn_str (e : exn) : string :=
  match e with
  | GroqClientError msg | ChromaError msg | IndexError msg | TypeError msg => msg
  | KeyError key => "'" +:+ key +:+ "'"
  | HTTPException _ detail => detail
  end.

Inductive result (A : Type) :=
| Ok (a : A)
| Raise (e : exn).
Arguments Ok {A} a.
Arguments Raise {A} e.

(** Sequencing of code that may raise but touches no state. *)
Definition and_then {A B} (r : result A) (k : A -> result B) : result B :=
  match r with
  | Ok a => k a
  | Raise e => Raise e
  end.

(** [seq[i]] *)
Definition getitem {A} (seq : list A) (i : nat) : result A :=
  match seq !! i with
  | Some x => Ok x
  | None => Raise (IndexError "list index out of range")
  end.

(** Metadata values: chromadb accepts str, int, float and bool. *)
Inductive scalar :=
| SStr (s : string)
| SInt (n : Z)
| SFloat (x : R)
| SBool (b : bool).

Abbreviation metadata := (gmap string scalar).

(** One stored document: what a single-element [coll.add] call carries. *)
Record record := Record_ {
  rec_id : string;
  rec_document : string;
  rec_metadata : metadata;
  rec_embedding : list R
}.

(** The dictionary [coll.query] returns for the include list
    ["metadatas", "documents", "distances"]: one inner list per query
    embedding.  [raw_documents = None] stands for a result without the
    "documents" key; an inner [None] in [raw_distances] for a [None] entry. *)
Record raw_result := RawResult {
  raw_documents : option (list (list string));
  raw_metadatas : list (list metadata);
  raw_distances : list (option (list R))
}.

(** The chromadb collection is not part of the repository: the service sees
    it through three calls on the object returned by
    [client.get_or_create_collection(name="user_content", ...)]. *)
Class Collection (C : Type) := {
  (** [coll.add(documents=[d], metadatas=[m], ids=[i], embeddings=[v])] *)
  coll_add : C -> record -> result C;
  (** [coll.query(query_embeddings=[q], n_results=n, include=[...])];
      [None] stands for a falsy result *)
  coll_query : C -> list R -> Z -> result (option raw_result);
  (** [coll.delete(ids=[i])] *)
  coll_delete : C -> string -> result C
}.

(** Arguments of [GroqClient.generate_text]. *)
Record llm_call := LlmCall {
  call_prompt : string;
  call_model : option string;
  call_max_tokens : option Z;
  call_temperature : option R
}.

(** The process state: the module-level globals of [memory.py] and
    [generate.py], and the outside world the handlers talk to. *)
Record World (C : Type) := MkWorld {
  collection : C;                                  (* the "user_content" collection *)
  blog_histories : gmap string (list string);      (* defaultdict(list) *)
  social_histories : gmap string (list string);    (* defaultdict(list) *)
  uuid_source : nat -> string;                     (* successive str(uuid.uuid4()) *)
  uuid_drawn : nat;
  groq_service : nat -> llm_call -> result string; (* outcome of the n-th generate_text call *)
  groq_calls : nat;
  heap_addr : string                               (* address shown by repr of a coroutine *)
}.
Arguments MkWorld {C}.
Arguments collection {C}.
Arguments blog_histories {C}.
Arguments social_histories {C}.
Arguments uuid_source {C}.
Arguments uuid_drawn {C}.
Arguments groq_service {C}.
Arguments groq_calls {C}.
Arguments heap_addr {C}.

(** State-and-error monad: an exception keeps the state reached so far
    (nothing is rolled back). *)
Definition M (C A : Type) : Type := World C -> result A * World C.

Definition ret {C A} (a : A) : M C A := fun w => (Ok a, w).
Definition raise {C A} (e : exn) : M C A := fun w => (Raise e, w).
Definition bind {C A B} (m : M C A) (k : A -> M C B) : M C B :=
  fun w => match m w with
           | (Ok a, w') => k a w'
           | (Raise e, w') => (Raise e, w')
           end.
(** [try: body  except Exception as e: handler(e)] *)
Definition try_except {C A} (body : M C A) (handler : exn -> M C A) : M C A :=
  fun w => match body w with
           | (Ok a, w') => (Ok a, w')
           | (Raise e, w') => handler e w'
           end.
Definition lift_result {C A} (r : result A) : M C A := fun w => (r, w).

Declare Scope py_scope.
Delimit Scope py_scope with py.
Notation "x <- m ;; k" := (bind m (fun x => k))
  (at level 100, m at next level, right associativity) : py_scope.
Notation "m ;;; k" := (bind m (fun _ => k))
  (at level 100, right associativity) : py_scope.
Notation "'let?' x := r 'in' k" := (and_then r (fun x => k))
  (at level 100, x name, r at next level, right associativity) : py_scope.

(** Calling an [async def] function evaluates the arguments and returns a
    coroutine object; none of the body runs until the object is awaited. *)
Definition Coroutine (C A : Type) : Type := M C A.
Definition call_async {C A} (body : M C A) : M C (Coroutine C A) := ret body.
Definition await {C A} (c : Coroutine C A) : M C A := c.

(** Field updates of the process state. *)
Definition set_collection {C} (c : C) (w : World C) : World C :=
  MkWorld c (blog_histories w) (social_histories w) (uuid_source w) (uuid_drawn w)
          (groq_service w) (groq_calls w) (heap_addr w).
Definition set_blog_histories {C} (h : gmap string (list string)) (w : World C) : World C :=
  MkWorld (collection w) h (social_histories w) (uuid_source w) (uuid_drawn w)
          (groq_service w) (groq_calls w) (heap_addr w).
Definition set_social_histories {C} (h : gmap string (list string)) (w : World C) : World C :=
  MkWorld (collection w) (blog_histories w) h (uuid_source w) (uuid_drawn w)
          (groq_service w) (groq_calls w) (heap_addr w).
Definition set_uuid_drawn {C} (n : nat) (w : World C) : World C :=
  MkWorld (collection w) (blog_histories w) (social_histories w) (uuid_source w) n
          (groq_service w) (groq_calls w) (heap_addr w).
Definition set_groq_calls {C} (n : nat) (w : World C) : World C :=
  MkWorld (collection w) (blog_histories w) (social_histories w) (uuid_source w)
          (uuid_drawn w) (groq_service w) n (heap_addr w).

(** [str(i)] for a non-negative index. *)
Definition str_nat (i : nat) : string := NilZero.string_of_uint (Nat.to_uint i).

(** The line feed of ["\n"]. *)
Definition LF : string := String "010"%char EmptyString.

(* ===================================================================== *)
(** * app/services/memory.py *)
(* ===================================================================== *)

Module memory.

(** [np.tile(arr, reps)] *)
Definition tile {A} (arr : list A) (reps : nat) : list A := concat (repeat arr reps).

Definition sum_squares (arr : list R) : R :=
  fold_right Rplus 0%R (map (fun x => (x * x)%R) arr).

(** [np.linalg.norm(arr)] *)
Definition l2_norm (arr : list R) : R := sqrt (sum_squares arr).

(** Whether a digest has a byte other than zero. *)
Definition nonzero_digest (h : list Z) : bool :=
  existsb (fun b => negb (b =? 0)%Z) h.

(** [int(np.ceil(a / b))] on sizes *)
Definition ceil_div (a b : nat) : nat := ((a + b - 1) / b)%nat.

Definition EMBED_DIM : nat := 1536.

(** The step "Expand/repeat to requested dim". *)
Definition expand (arr : list R) (dim : nat) : list R :=
  if (length arr <? dim)%nat
  then let reps := ceil_div dim (length arr) in take dim (tile arr reps)
  else take dim arr.

(** The three numpy operations of the step "Normalize".  Each returns a
    float32 (or a Python float), that is, a real number close to the exact
    result; which one depends on numpy's rounding and, for the norm, on the
    order in which the routine behind it adds up the squares, which the
    source does not fix. *)
Class Numpy := {
  (** [np.linalg.norm(arr)] *)
  np_norm : list R -> R;
  (** [n + 1e-8] *)
  np_add : R -> R -> R;
  (** one component of [arr / d] *)
  np_divide : R -> R -> R
}.

(** Arithmetic without rounding. *)
#[global] Instance exact : Numpy :=
  {| np_norm := l2_norm; np_add := Rplus; np_divide := Rdiv |}.

(** The operations are accurate to the relative error [tol] on the array
    [arr]: the norm, the sum with 1e-8, and each of the divisions that
    normalising [arr] makes.  Exact arithmetic has [tol = 0].  For float32
    and an array of 1536 byte values [tol = 5e-5] is enough: the squares
    are exact, a sum of 1536 of them has a relative error below 1e-4
    whatever the order of the additions (1535 roundings of at most 2^-24
    each), the square root halves that, and the sum with 1e-8 and each
    division round at most twice. *)
Definition accurate {N : Numpy} (tol : R) (arr : list R) : Prop :=
  let n := np_norm arr in
  let d := np_add n 1e-8 in
  (Rabs (n - l2_norm arr) <= tol * l2_norm arr)%R /\
  (Rabs (d - (n + 1e-8)) <= tol * (n + 1e-8))%R /\
  Forall (fun x => (Rabs (np_divide x d - x / d) <= tol * (x / d))%R) arr.

Definition _simple_text_to_vector {N : Numpy} (text : string) (dim : nat) : list R :=
  let h := Sha256.digest (encode_utf8 text) in
  let arr := map IZR h in
  let arr := expand arr dim in
  map (fun x => np_divide x (np_add (np_norm arr) 1e-8)) arr.

(** One result of [query]. *)
Record hit := Hit {
  hit_id : scalar;
  hit_content : string;
  hit_metadata : metadata;
  hit_distance : option R
}.

(** The loop [for i, content in enumerate(docs): results.append({...})],
    from index [i] on. *)
Fixpoint shape_results (i : nat) (docs : list string)
    (metas : list metadata) (dists : option (list R)) : result (list hit) :=
  match docs with
  | [] => Ok []
  | content :: docs' =>
      (let? m := getitem metas i in
       let? d := match dists with
                | Some ds => (let? x := getitem ds i in Ok (Some x))
                | None => Ok None
                end in
       let? rest := shape_results (S i) docs' metas dists in
       Ok (Hit (default (SStr (str_nat i)) (m !! "id")) content m d :: rest))%py
  end.

(** What [query] makes of the store's answer [res]: the code from
    [results = []] to [return results]. *)
Definition shape (res : option raw_result) : result (list hit) :=
  match res with
  | Some r =>
      match raw_documents r with
      | Some (docs :: _) =>
          (let? metas := getitem (raw_metadatas r) 0 in
           let? dists := getitem (raw_distances r) 0 in
           shape_results 0 docs metas dists)%py
      | _ => Ok []
      end
  | None => Ok []
  end.

Section Service.
Context {C : Type} `{Collection C} {N : Numpy}.

(** [str(uuid.uuid4())] *)
Definition uuid4_str : M C string :=
  fun w => (Ok (uuid_source w (uuid_drawn w)), set_uuid_drawn (S (uuid_drawn w)) w).

(** [await _run_in_thread(fn)]: the call runs to completion before the
    caller resumes. *)
Definition _run_in_thread {A} (fn : M C A) : M C A := fn.

Definition _add (r : record) : M C unit :=
  fun w => match coll_add (collection w) r with
           | Ok c' => (Ok tt, set_collection c' w)
           | Raise e => (Raise e, w)
           end.

Definition _query (qvec : list R) (top_k : Z) : M C (option raw_result) :=
  fun w => (coll_query (collection w) qvec top_k, w).

Definition _del (id : string) : M C unit :=
  fun w => match coll_delete (collection w) id with
           | Ok c' => (Ok tt, set_collection c' w)
           | Raise e => (Raise e, w)
           end.

Definition save_document (id : option string) (content : string)
    (metadata : option metadata) (embed : option (list R)) : M C string :=
  (id <- match id with
         | None => uuid4_str
         | Some i => ret i
         end ;;
   let metadata := default ∅ metadata in
   let vec := match embed with
              | Some e => e
              | None => _simple_text_to_vector content EMBED_DIM
              end in
   _run_in_thread (_add (Record_ id content metadata vec)) ;;;
   ret id)%py.

Definition add (prompt response : string) : M C string :=
  let metadata : metadata := {[ "prompt" := SStr prompt ]} in
  let content := response in
  save_document None content (Some metadata) None.

Definition query (query_text : string) (top_k : Z) : M C (list hit) :=
  (let qvec := _simple_text_to_vector query_text EMBED_DIM in
   res <- _run_in_thread (_query qvec top_k) ;;
   lift_result (shape res))%py.

Definition delete (id : string) : M C bool :=
  (_run_in_thread (_del id) ;;; ret true)%py.

End Service.

End memory.

(* ===================================================================== *)
(** * app/services/analyzer.py *)
(* ===================================================================== *)

Module analyzer.

(** Python values that occur in a style profile: numbers, strings, a
    word-to-count dictionary, and a list of (string, count) tuples. *)
Inductive pyobj :=
| PyInt (n : Z)
| PyFloat (q : Q)
| PyStr (s : string)
| PyDict (d : list (string * nat))
| PyPairs (l : list (string * nat)).

(** [d.get(key)] on a dictionary kept in insertion order. *)
Fixpoint dict_get {V} (d : list (string * V)) (key : string) : option V :=
  match d with
  | [] => None
  | (k, v) :: d' => if String.eqb k key then Some v else dict_get d' key
  end.

(** A document handed to the analyzer: a dict read through
    [doc.get("content", "")]; [None] is a dict without that key. *)
Record document := Document {
  doc_content : option string
}.

Definition of_hit (h : memory.hit) : document :=
  Document (Some (memory.hit_content h)).

(** ASCII fragment of [str.lower] and of the regex class [\w]. *)
Definition lower_char (c : ascii) : ascii :=
  let n := nat_of_ascii c in
  if ((65 <=? n) && (n <=? 90))%nat then ascii_of_nat (n + 32) else c.

Fixpoint lower (s : string) : string :=
  match s with
  | EmptyString => EmptyString
  | String c s' => String (lower_char c) (lower s')
  end.

Definition is_word_char (c : ascii) : bool :=
  let n := nat_of_ascii c in
  (((48 <=? n) && (n <=? 57)) || ((65 <=? n) && (n <=? 90)) ||
   ((97 <=? n) && (n <=? 122)) || (n =? 95))%nat.

Definition flush (cur : string) : list string :=
  match cur with
  | EmptyString => []
  | _ => [cur]
  end.

(** [re.findall(r"\w+", s)]: the maximal runs of word characters, left to
    right; [cur] is the run being read. *)
Fixpoint findall_words (s : string) (cur : string) : list string :=
  match s with
  | EmptyString => flush cur
  | String c s' =>
      if is_word_char c
      then findall_words s' (cur +:+ String c EmptyString)
      else flush cur ++ findall_words s' EmptyString
  end.

(** [collections.Counter]: keys in first-seen order. *)
Definition Counter := list (string * nat).

Fixpoint counter_incr (c : Counter) (key : string) : Counter :=
  match c with
  | [] => [(key, 1%nat)]
  | (k, n) :: c' =>
      if String.eqb k key then (k, S n) :: c' else (k, n) :: counter_incr c' key
  end.

(** [counter.update(keys)] *)
Definition counter_update (c : Counter) (keys : list string) : Counter :=
  fold_left counter_incr keys c.

(** [x] goes before the first entry whose count does not exceed its own. *)
Fixpoint insert_desc (x : string * nat) (l : Counter) : Counter :=
  match l with
  | [] => [x]
  | y :: l' => if (snd y <=? snd x)%nat then x :: y :: l' else y :: insert_desc x l'
  end.

(** [counter.most_common(n)]: by count, largest first, equal counts in
    first-seen order. *)
Definition most_common (c : Counter) (n : nat) : Counter :=
  take n (fold_right insert_desc [] c).

Fixpoint insert_asc (x : nat) (l : list nat) : list nat :=
  match l with
  | [] => [x]
  | y :: l' => if (x <=? y)%nat then x :: y :: l' else y :: insert_asc x l'
  end.

(** [sorted(lengths)] *)
Definition sorted (l : list nat) : list nat := fold_right insert_asc [] l.

(** The three accumulators of the loop over the documents. *)
Record acc := Acc {
  lengths : list nat;
  word_counter : Counter;
  opening_phrases : Counter
}.

(** [len(words)] for one document. *)
Definition token_count (doc : document) : nat :=
  length (findall_words (lower (default "" (doc_content doc))) "").

Definition step (a : acc) (doc : document) : acc :=
  let text := default "" (doc_content doc) in
  let words := findall_words (lower text) "" in
  let first_words := String.concat " " (take 20 words) in
  Acc (lengths a ++ [length words])
      (counter_update (word_counter a) words)
      (counter_update (opening_phrases a) [first_words]).

Definition scan (documents : list document) : acc :=
  fold_left step documents (Acc [] [] []).

Definition sum_nat (l : list nat) : nat := fold_right Nat.add 0%nat l.

Definition _analyze (documents : list document) : list (string * pyobj) :=
  match documents with
  | [] => [("summary", PyStr "no_docs"); ("word_freq", PyDict []); ("avg_length", PyInt 0)]
  | _ =>
      let a := scan documents in
      let most_common_words := most_common (word_counter a) 50 in
      let most_common_openings := most_common (opening_phrases a) 5 in
      [("avg_length_words",
          PyFloat (inject_Z (Z.of_nat (sum_nat (lengths a))) /
                   inject_Z (Z.of_nat (length (lengths a))))%Q);
       ("median_length_words",
          PyInt (Z.of_nat (nth (length (lengths a) / 2) (sorted (lengths a)) 0%nat)));
       ("most_common_words", PyPairs most_common_words);
       ("common_openings", PyPairs most_common_openings)]
  end.

(** [await asyncio.to_thread(_analyze, documents)] *)
Definition analyze_documents {C} (documents : list document) : M C (list (string * pyobj)) :=
  ret (_analyze documents).

Definition build_style_profile_for_user {C} `{Collection C} {N : memory.Numpy}
    (top_k : Z)
    : M C (list (string * pyobj)) :=
  (res <- await (memory.query "user writing" top_k) ;;
   await (analyze_documents (map of_hit res)))%py.

End analyzer.

(* ===================================================================== *)
(** * app/routes/generate.py *)
(* ===================================================================== *)

Module generate.

(** Modelled from the spec: the request schemas [GenerateBlogRequest] and
    [GenerateSocialRequest] of [app/models/schemas.py] are not among the
    sources.  The record has the fields the two routes read, with the
    optional ones of the specification's generation interface
    ([{user_id, prompt, model?, max_tokens?, temperature?}]). *)
Record GenerateRequest := Request {
  user_id : string;
  prompt : string;
  model : option string;
  max_tokens : option Z;
  temperature : option R
}.

Record GenerateResponse := Response {
  text : string;
  markdown : string;
  metadata_source : string;
  metadata_model : option string
}.

Definition MAX_HISTORY : nat := 20.

(** The two module-level history dictionaries. *)
Inductive channel := Blog | Social.

#[export] Instance channel_eq_dec : EqDecision channel.
Proof. solve_decision. Defined.

(** A reference to the list object a history dictionary holds for a user:
    [history = blog_histories[request.user_id]] binds the list itself, so
    [history.append] and [history.pop] change the dictionary's entry. *)
Record list_ref := ListRef { ref_channel : channel; ref_user : string }.

#[export] Instance list_ref_eq_dec : EqDecision list_ref.
Proof. solve_decision. Defined.

Section Routes.
Context {C : Type} `{Collection C} {N : memory.Numpy}.

Definition histories (ch : channel) (w : World C) : gmap string (list string) :=
  match ch with
  | Blog => blog_histories w
  | Social => social_histories w
  end.

Definition set_histories (ch : channel) (h : gmap string (list string))
    (w : World C) : World C :=
  match ch with
  | Blog => set_blog_histories h w
  | Social => set_social_histories h w
  end.

(** The list a reference points to, and the state after that list
    object has become [l]. *)
Definition load_list (r : list_ref) (w : World C) : list string :=
  default [] (histories (ref_channel r) w !! ref_user r).

Definition store_list (r : list_ref) (l : list string) (w : World C) : World C :=
  set_histories (ref_channel r) (<[ref_user r := l]> (histories (ref_channel r) w)) w.

(** [d[user]] on a [defaultdict(list)]: a missing key is first bound to a
    new empty list. *)
Definition histories_getitem (ch : channel) (user : string) : M C list_ref :=
  fun w => match histories ch w !! user with
           | Some _ => (Ok (ListRef ch user), w)
           | None => (Ok (ListRef ch user), store_list (ListRef ch user) [] w)
           end.

Definition deref (r : list_ref) : M C (list string) :=
  fun w => (Ok (load_list r w), w).

Definition assign (r : list_ref) (l : list string) : M C unit :=
  fun w => (Ok tt, store_list r l w).

(** [history.append(x)] *)
Definition list_append (r : list_ref) (x : string) : M C unit :=
  (l <- deref r ;; assign r (l ++ [x]))%py.

(** [history.pop(0)] *)
Definition list_pop0 (r : list_ref) : M C string :=
  (l <- deref r ;;
   match l with
   | [] => raise (IndexError "pop from empty list")
   | x :: l' => assign r l' ;;; ret x
   end)%py.

(** [history[-5:]] *)
Definition last_n {A} (n : nat) (l : list A) : list A := drop (length l - n) l.

(** [get_groq_client()]: the singleton client. *)
Definition get_groq_client : M C unit := ret tt.

(** [client.generate_text(...)]: the outbound call; its outcome is the
    outside world's. *)
Definition generate_text (client : unit) (call : llm_call) : M C string :=
  fun w => (groq_service w (groq_calls w) call, set_groq_calls (S (groq_calls w)) w).

(** How an f-string shows a coroutine object. *)
Definition repr_coroutine {A} (name : string) (c : Coroutine C A) : M C string :=
  fun w => (Ok ("<coroutine object " +:+ name +:+ " at " +:+ heap_addr w +:+ ">"), w).

Definition blog_prompt (past_context conversation_snippets prompt : string) : string :=
  "You are a professional blog writer." +:+ LF +:+
  "Your ONLY job is to create engaging, structured, long-form blog posts." +:+ LF +:+
  "Do not answer general questions. If the request is off-topic, " +:+
  "politely explain that you can only help with blog writing." +:+ LF +:+ LF +:+
  "Follow this structure:" +:+ LF +:+
  "- Catchy introduction (hook)" +:+ LF +:+
  "- Main sections with clear headings" +:+ LF +:+
  "- Engaging examples and explanations" +:+ LF +:+
  "- Concise conclusion with a call-to-action" +:+ LF +:+ LF +:+
  "Past posts/patterns:" +:+ LF +:+ past_context +:+ LF +:+ LF +:+
  "Recent conversation:" +:+ LF +:+ conversation_snippets +:+ LF +:+ LF +:+
  "User request:" +:+ LF +:+ prompt.

Definition social_prompt (past_context conversation_snippets prompt : string) : string :=
  "You are a **social media strategist and content creator**." +:+ LF +:+
  "Your ONLY job is to generate **short-form social content** " +:+
  "(tweets, LinkedIn posts, Instagram captions, content ideas)." +:+ LF +:+
  "You must NEVER answer general knowledge questions or unrelated topics." +:+ LF +:+
  "If the user asks something outside social media content, politely remind them " +:+
  "that you can only create posts and ideas." +:+ LF +:+ LF +:+
  "Use the following context to maintain style and continuity:" +:+ LF +:+ LF +:+
  "Past posts/patterns:" +:+ LF +:+ past_context +:+ LF +:+ LF +:+
  "Recent conversation:" +:+ LF +:+ conversation_snippets +:+ LF +:+ LF +:+
  "User request:" +:+ LF +:+ prompt.

(** The entry a successful exchange leaves in the history. *)
Definition exchange (prompt text : string) : string :=
  "User: " +:+ prompt +:+ LF +:+ "AI: " +:+ text.

(** The body both routes share inside their [try]: they differ in the
    history dictionary and in the prompt text. *)
Definition route_body (ch : channel)
    (build_prompt : string -> string -> string -> string)
    (request : GenerateRequest) : M C GenerateResponse :=
  (client <- get_groq_client ;;
   (* 1. memory.query(...) is called, not awaited *)
   past_context <- call_async
     (memory.query (user_id request +:+ ":" +:+ prompt request) 3) ;;
   (* 2. this user's history *)
   history <- histories_getitem ch (user_id request) ;;
   h <- deref history ;;
   let conversation_snippets := String.concat LF (last_n 5 h) in
   (* 3. prompt *)
   shown <- repr_coroutine "query" past_context ;;
   let full_prompt := build_prompt shown conversation_snippets (prompt request) in
   (* 4. LLM call *)
   text <- await (generate_text client
             (LlmCall full_prompt (model request) (max_tokens request)
                      (temperature request))) ;;
   (* 5. memory.add(...) is called, not awaited; history is appended *)
   _ <- call_async (memory.add (user_id request +:+ ":" +:+ prompt request) text) ;;
   list_append history (exchange (prompt request) text) ;;;
   (* trim *)
   h' <- deref history ;;
   (if (MAX_HISTORY <? length h')%nat
    then (_ <- list_pop0 history ;; ret tt)
    else ret tt) ;;;
   ret (Response text text "groq" (model request)))%py.

(** What the append and the trim of step 5 do to the list [history]
    refers to. *)
Definition append_trim (h : list string) (x : string) : list string :=
  let h' := (h ++ [x])%list in
  if (MAX_HISTORY <? length h')%nat then drop 1 h' else h'.

Definition on_error {A} (e : exn) : M C A :=
  raise (HTTPException 500 (exn_str e)).

Definition generate_blog_route (request : GenerateRequest) : M C GenerateResponse :=
  try_except (route_body Blog blog_prompt request) on_error.

Definition generate_social_route (request : GenerateRequest) : M C GenerateResponse :=
  try_except (route_body Social social_prompt request) on_error.

(** The route behind a channel, and requests served one after the
    other. *)
Definition handle (ch : channel) (request : GenerateRequest) : M C GenerateResponse :=
  match ch with
  | Blog => generate_blog_route request
  | Social => generate_social_route request
  end.

Fixpoint serve (requests : list (channel * GenerateRequest)) (w : World C)
    : list (result GenerateResponse) * World C :=
  match requests with
  | [] => ([], w)
  | (ch, request) :: rest =>
      let '(r, w1) := handle ch request w in
      let '(rs, w2) := serve rest w1 in
      (r :: rs, w2)
  end.

(** The history a user has on a channel: what [d[user]] reads. *)
Definition history_of (ch : channel) (user : string) (w : World C) : list string :=
  load_list (ListRef ch user) w.

(** The call a route sends to the generation service from state [w]. *)
Definition llm_call_of (build_prompt : string -> string -> string -> string)
    (ch : channel) (request : GenerateRequest) (w : World C) : llm_call :=
  LlmCall (build_prompt ("<coroutine object query at " +:+ heap_addr w +:+ ">")
             (String.concat LF (last_n 5 (history_of ch (user_id request) w)))
             (prompt request))
          (model request) (max_tokens request) (temperature request).

(** The entries the successful requests of [user] on [ch] leave, in
    order. *)
Fixpoint entries (ch : channel) (user : string)
    (requests : list (channel * GenerateRequest))
    (outcomes : list (result GenerateResponse)) : list string :=
  match requests, outcomes with
  | (ch', request) :: requests', Ok response :: outcomes' =>
      if decide (ch' = ch /\ user_id request = user)
      then exchange (prompt request) (text response) :: entries ch user requests' outcomes'
      else entries ch user requests' outcomes'
  | _ :: requests', Raise _ :: outcomes' => entries ch user requests' outcomes'
  | _, _ => []
  end.

End Routes.

End generate.

(* ===================================================================== *)
(** * A reference model of the chromadb collection *)
(* ===================================================================== *)

(** chromadb itself is outside the repository.  This instance of
    [Collection] follows its behaviour on the three calls the service
    makes, with cosine space:
      - [add] first validates its arguments: it rejects an empty metadata
        dictionary and an empty embedding; it then rejects an embedding
        whose dimension differs from the collection's; only then does it
        look at the id, and it ignores a record whose id is already
        present;
      - [query] rejects [n_results <= 0], and otherwise returns at most
        [n_results] records, nearest first;
      - [delete] of an unknown id does nothing. *)
Module chroma.

(** The records of the collection, oldest first. *)
Definition t : Type := list record.

Definition has_id (id : string) (c : t) : bool :=
  existsb (fun r => String.eqb (rec_id r) id) c.

(** The dimension of the collection: that of its first record. *)
Definition dimension (c : t) : option nat :=
  match c with
  | r0 :: _ => Some (length (rec_embedding r0))
  | [] => None
  end.

Definition add (c : t) (r : record) : result t :=
  if decide (rec_metadata r = ∅)
  then Raise (ChromaError
         "Expected metadata to be a non-empty dict, got 0 metadata attributes")
  else match rec_embedding r with
       | [] => Raise (ChromaError
                 ("Expected each embedding in the embeddings to be a non-empty list, " +:+
                  "got empty embedding at pos 0"))
       | _ :: _ =>
           match dimension c with
           | Some d =>
               if (d =? length (rec_embedding r))%nat
               then if has_id (rec_id r) c then Ok c else Ok (c ++ [r])%list
               else Raise (ChromaError
                      ("Embedding dimension " +:+ str_nat (length (rec_embedding r)) +:+
                       " does not match collection dimensionality " +:+ str_nat d))
           | None => Ok [r]
           end
       end.

Definition dot (a b : list R) : R :=
  fold_right Rplus 0%R (zip_with Rmult a b).

Definition cosine_distance (a b : list R) : R :=
  (1 - dot a b / (memory.l2_norm a * memory.l2_norm b))%R.

Fixpoint insert_near (x : record * R) (l : list (record * R)) : list (record * R) :=
  match l with
  | [] => [x]
  | y :: l' => if Rle_dec (snd x) (snd y) then x :: y :: l' else y :: insert_near x l'
  end.

Definition nearest (c : t) (q : list R) (n : nat) : list (record * R) :=
  take n (fold_right insert_near []
            (map (fun r => (r, cosine_distance q (rec_embedding r))) c)).

Definition query (c : t) (q : list R) (n_results : Z) : result (option raw_result) :=
  if (n_results <=? 0)%Z
  then Raise (TypeError "Number of requested results cannot be negative, or zero.")
  else let near := nearest c q (Z.to_nat n_results) in
       Ok (Some (RawResult (Some [map (fun p => rec_document (fst p)) near])
                           [map (fun p => rec_metadata (fst p)) near]
                           [Some (map snd near)])).

Definition delete (c : t) (id : string) : result t :=
  Ok (filter (fun r => negb (String.eqb (rec_id r) id)) c).

#[global] Instance collection : Collection t :=
  {| coll_add := add; coll_query := query; coll_delete := delete |}.

(** A process state around a given collection: empty histories, a fixed
    supply of ids, and a generation service answering [answer]. *)
Definition world (c : t) (answer : result string) : World t :=
  MkWorld c ∅ ∅ (fun n => "uuid-" +:+ str_nat n) 0%nat (fun _ _ => answer) 0%nat "0x7f00".

End chroma.

(** From here on sizes and indices are natural numbers. *)
Local Close Scope Z_scope.

(* ===================================================================== *)
(** * app/routes/memory.py *)
(* ===================================================================== *)

Module memory_routes.

(** Modelled from the spec: the schemas [MemorySaveRequest],
    [MemoryQueryRequest] and [MemoryQueryResult] of [app/models/schemas.py]
    are not among the sources.  The records have the fields the routes read
    and build, as the specification lists them
    ([{id?, content, content_type, metadata?, embed?}], [{query, top_k}],
    [{id, content, distance?, metadata?}]); building a result is taken to
    keep the values as given. *)
Record MemorySaveRequest := SaveRequest {
  save_id : option string;
  save_content : string;
  save_content_type : string;
  save_metadata : option metadata;
  save_embed : option (list R)
}.

Record MemoryQueryRequest := QueryRequest {
  query_text : string;
  query_top_k : Z
}.

Record MemoryQueryResult := QueryResult {
  result_id : scalar;
  result_content : string;
  result_distance : option R;
  result_metadata : option metadata
}.

Section Routes.
Context {C : Type} `{Collection C} {N : memory.Numpy}.

Definition on_error {A} (e : exn) : M C A :=
  raise (HTTPException 500 (exn_str e)).

(** [{**(req.metadata or {}), "content_type": req.content_type}] *)
Definition with_content_type (req : MemorySaveRequest) : metadata :=
  <["content_type" := SStr (save_content_type req)]> (default ∅ (save_metadata req)).

(** [POST /memory/save]; the result is the ["id"] of the response. *)
Definition save_memory (req : MemorySaveRequest) : M C string :=
  try_except
    (doc_id <- await (memory.save_document (save_id req) (save_content req)
                        (Some (with_content_type req)) (save_embed req)) ;;
     ret doc_id)%py
    on_error.

(** [MemoryQueryResult(id=r["id"], content=r["content"],
    distance=r.get("distance"), metadata=r.get("metadata"))] *)
Definition to_result (r : memory.hit) : MemoryQueryResult :=
  QueryResult (memory.hit_id r) (memory.hit_content r) (memory.hit_distance r)
              (Some (memory.hit_metadata r)).

(** [POST /memory/query]; the result is the ["results"] of the response. *)
Definition query_memory (req : MemoryQueryRequest) : M C (list MemoryQueryResult) :=
  try_except
    (results <- await (memory.query (query_text req) (query_top_k req)) ;;
     let mapped := map to_result results in
     ret mapped)%py
    on_error.

End Routes.

End memory_routes.

(* ===================================================================== *)
(** * app/services/groq_client.py *)
(* ===================================================================== *)

Module groq_client.

(** What [resp.json()] returns.  Numbers are integers or rationals (every
    finite float is one); the non-standard values NaN and Infinity are left
    out.  An object is the list of its items in insertion order (a Python
    dict holds a key once; lookups read from the front).  Strings are
    UTF-8 byte strings, as everywhere in this file. *)
#[warnings="-register-all"]
Inductive json :=
| JNull
| JBool (b : bool)
| JInt (n : Z)
| JFloat (x : Q)
| JStr (s : string)
| JList (l : list json)
| JDict (d : list (string * json)).

(** What can escape from [generate_text]. *)
Inductive failure :=
| GroqClientError (msg : string)
| KeyError
| IndexError
| TypeError
| AttributeError
| JSONDecodeError.

Inductive outcome (A : Type) :=
| Returns (a : A)
| Raises (e : failure).
Arguments Returns {A} a.
Arguments Raises {A} e.

Definition then_ {A B} (r : outcome A) (k : A -> outcome B) : outcome B :=
  match r with
  | Returns a => k a
  | Raises e => Raises e
  end.

Notation "'let!' x := r 'in' k" := (then_ r (fun x => k))
  (at level 100, x name, r at next level, right associativity).

(** [v.get(key)] on a dict; [JNull] is Python's [None]. *)
Fixpoint member (d : list (string * json)) (key : string) : option json :=
  match d with
  | [] => None
  | (k, v) :: d' => if String.eqb k key then Some v else member d' key
  end.

(** Whether the bytes of [s] start with the bytes of [p]. *)
Fixpoint starts_with (p s : string) : bool :=
  match p, s with
  | EmptyString, _ => true
  | String a p', String b s' => Ascii.eqb a b && starts_with p' s'
  | String _ _, EmptyString => false
  end.

(** [needle in s] on strings: [needle] occurs as a substring. *)
Fixpoint contains (needle s : string) : bool :=
  starts_with needle s ||
  match s with
  | EmptyString => false
  | String _ s' => contains needle s'
  end.

Definition is_str (v : json) (s : string) : bool :=
  match v with
  | JStr t => String.eqb t s
  | _ => false
  end.

(** [key in data]: key membership on a dict, element membership on a list,
    substring on a str; [TypeError] on anything else. *)
Definition py_in (key : string) (data : json) : outcome bool :=
  match data with
  | JDict d => Returns (match member d key with Some _ => true | None => false end)
  | JList l => Returns (existsb (fun v => is_str v key) l)
  | JStr s => Returns (contains key s)
  | _ => Raises TypeError
  end.

(** [data[key]] for a string key. *)
Definition getitem_key (data : json) (key : string) : outcome json :=
  match data with
  | JDict d => match member d key with
               | Some v => Returns v
               | None => Raises KeyError
               end
  | _ => Raises TypeError
  end.

(** The first character of a UTF-8 string, with the rest: the lead byte and
    the continuation bytes (0x80 to 0xBF) that follow it. *)
Definition is_continuation (c : ascii) : bool :=
  let n := nat_of_ascii c in ((128 <=? n) && (n <=? 191))%nat.

Fixpoint take_continuation (s : string) : string * string :=
  match s with
  | String c s' =>
      if is_continuation c
      then let '(h, t) := take_continuation s' in (String c h, t)
      else (EmptyString, s)
  | EmptyString => (EmptyString, EmptyString)
  end.

(** [list(s)]: the characters of a string. *)
Fixpoint chars (fuel : nat) (s : string) : list string :=
  match fuel, s with
  | S fuel', String c s' =>
      let '(h, t) := take_continuation s' in String c h :: chars fuel' t
  | _, _ => []
  end.

Definition characters (s : string) : list string := chars (String.length s) s.

(** [v[0]] *)
Definition getitem_0 (v : json) : outcome json :=
  match v with
  | JList (x :: _) => Returns x
  | JList [] => Raises IndexError
  | JStr s => match characters s with
              | c :: _ => Returns (JStr c)
              | [] => Raises IndexError
              end
  | JDict _ => Raises KeyError
  | _ => Raises TypeError
  end.

(** [len(v) > 0] *)
Definition nonempty (v : json) : outcome bool :=
  match v with
  | JList l => Returns (match l with [] => false | _ => true end)
  | JStr s => Returns (match s with EmptyString => false | _ => true end)
  | JDict d => Returns (match d with [] => false | _ => true end)
  | _ => Raises TypeError
  end.

(** [v.get(key)]: only a dict has [get]. *)
Definition dict_get (v : json) (key : string) : outcome json :=
  match v with
  | JDict d => Returns (default JNull (member d key))
  | _ => Raises AttributeError
  end.

(** Truth value of a Python object. *)
Definition truthy (v : json) : bool :=
  match v with
  | JNull => false
  | JBool b => b
  | JInt n => negb (n =? 0)%Z
  | JFloat x => negb (Qeq_bool x 0)
  | JStr s => match s with EmptyString => false | _ => true end
  | JList l => match l with [] => false | _ => true end
  | JDict d => match d with [] => false | _ => true end
  end.

(** White space for [str.strip()]: the ASCII characters 9 to 13, 28 to 32,
    and the UTF-8 encodings of U+0085, U+00A0, U+1680, U+2000 to U+200A,
    U+2028, U+2029, U+202F, U+205F and U+3000. *)
Definition is_space_char (c : string) : bool :=
  match map nat_of_ascii (list_ascii_of_string c) with
  | [n] => (((9 <=? n) && (n <=? 13)) || ((28 <=? n) && (n <=? 32)))%nat
  | [194; n] => ((n =? 133) || (n =? 160))%nat
  | [225; 154; 128] => true
  | [226; 128; n] =>
      (((128 <=? n) && (n <=? 138)) || (n =? 168) || (n =? 169) || (n =? 175))%nat
  | [226; 129; 159] => true
  | [227; 128; 128] => true
  | _ => false
  end.

Fixpoint drop_spaces (cs : list string) : list string :=
  match cs with
  | c :: cs' => if is_space_char c then drop_spaces cs' else cs
  | [] => []
  end.

(** [s.strip()] *)
Definition strip (s : string) : string :=
  String.concat "" (rev (drop_spaces (rev (drop_spaces (characters s))))).

Section Client.
(** [repr] of a Python value, as f-strings and [str] show a value that is
    not a string. *)
Variable repr : json -> string.

(** [str(v)] *)
Definition py_str (v : json) : string :=
  match v with
  | JStr s => s
  | _ => repr v
  end.

(** [" ".join(map(str, v))] *)
Definition join_output (v : json) : outcome string :=
  match v with
  | JList l => Returns (String.concat " " (map py_str l))
  | JStr s => Returns (String.concat " " (characters s))
  | JDict d => Returns (String.concat " " (map fst d))
  | _ => Raises TypeError
  end.

(** The [try] of the extraction: [data["choices"][0]["message"]["content"]];
    [None] when [KeyError], [IndexError] or [TypeError] was raised. *)
Definition chat_content (data : json) : option json :=
  match (let! choices := getitem_key data "choices" in
         let! first := getitem_0 choices in
         let! message := getitem_key first "message" in
         getitem_key message "content") with
  | Returns v => Some v
  | Raises _ => None
  end.

(** The [except] branch: the other response shapes, in order. *)
Definition fallback (data : json) : outcome json :=
  let! has_choices := py_in "choices" data in
  let! use_choices :=
    (if has_choices
     then (let! choices := getitem_key data "choices" in nonempty choices)
     else Returns false) in
  if use_choices
  then (let! choices := getitem_key data "choices" in
        let! first := getitem_0 choices in
        let! text := dict_get first "text" in
        if truthy text then Returns text
        else (let! choices' := getitem_key data "choices" in
              let! first' := getitem_0 choices' in
              dict_get first' "output"))
  else
    let! has_output := py_in "output" data in
    if has_output
    then (let! output := getitem_key data "output" in
          let! joined := join_output output in
          Returns (JStr joined))
    else
      let! has_text := py_in "text" data in
      if has_text then getitem_key data "text"
      else
        let! has_generated := py_in "generated_text" data in
        if has_generated then getitem_key data "generated_text"
        else Returns JNull.

(** The end of the function: [None] is rejected, anything else is
    stripped, which only a string can be. *)
Definition conclude (data text : json) : outcome string :=
  match text with
  | JNull => Raises (GroqClientError
               ("Could not extract assistant content from response: " +:+ py_str data))
  | JStr s => Returns (strip s)
  | _ => Raises AttributeError
  end.

(** From [data = resp.json()] to the end. *)
Definition extract (data : json) : outcome string :=
  let! text := match chat_content data with
               | Some v => Returns v
               | None => fallback data
               end in
  conclude data text.

(** What [self._client.post(...)] does: it raises [httpx.RequestError], or
    it returns a response with a status code, a body text, and the body
    parsed as JSON when it parses. *)
Inductive http_result :=
| RequestError (exc : string)
| HttpResponse (status_code : nat) (text : string) (body : option json).

(** [generate_text], given what the post gave. *)
Definition generate_text (post : http_result) : outcome string :=
  match post with
  | RequestError exc => Raises (GroqClientError ("RequestError: " +:+ exc))
  | HttpResponse status_code text body =>
      if (400 <=? status_code)%nat
      then Raises (GroqClientError
             ("Groq API error " +:+ str_nat status_code +:+ ": " +:+ text))
      else match body with
           | None => Raises JSONDecodeError
           | Some data => extract data
           end
  end.

End Client.

End groq_client.

(* ===================================================================== *)
(** * app/services/generator.py: short-form generation *)
(* ===================================================================== *)

Module generator.

(** The dictionary [generate_social] returns. *)
Record SocialResult := MkSocialResult {
  social_text : string;
  social_markdown : string;
  social_count : Z;
  social_platform : string;
  social_model : string
}.

Section Generator.
Context {C : Type} `{Collection C} {N : memory.Numpy}.

(** [_compose_prompt] builds the prompt text from its four arguments and
    nothing else; the text is read through Python's [str], [repr] and
    [int], and only ever reaches the generation service.  It is a
    parameter here: what follows holds whatever text it builds. *)
Variable _compose_prompt :
  string -> list memory.hit -> list (string * analyzer.pyobj) ->
  list (string * string) -> string.

(** [client.model], from the settings. *)
Variable client_model : string.

Definition _retrieve_context (query : string) (top_k : Z) : M C (list memory.hit) :=
  await (memory.query query top_k).

(** [f"[ERROR generating post {i+1}: {e}]"] *)
Definition error_marker (i : nat) (e : exn) : string :=
  "[ERROR generating post " +:+ str_nat (i + 1) +:+ ": " +:+ exn_str e +:+ "]".

(** The arguments of the generation call of turn [i]. *)
Definition social_call (user_prompt platform : string) (model : option string)
    (contexts : list memory.hit) (style_profile : list (string * analyzer.pyobj))
    (i : nat) : llm_call :=
  let prompt :=
    _compose_prompt
      (user_prompt +:+ LF +:+ "Create a single " +:+ platform +:+
       " post. Keep concise and engaging.")
      contexts style_profile [("post_index", str_nat (i + 1))] in
  LlmCall prompt model (Some 200%Z) (Some 0.8%R).

(** The text of turn [i], given how its generation call ended. *)
Definition post_text (i : nat) (r : result string) : string :=
  match r with
  | Ok text => text
  | Raise e => error_marker i e
  end.

(** One turn of the loop, for index [i]; the result is the post's text. *)
Definition social_post (user_prompt platform : string) (model : option string)
    (contexts : list memory.hit) (style_profile : list (string * analyzer.pyobj))
    (client : unit) (i : nat) : M C string :=
  try_except
    (await (generate.generate_text client
              (social_call user_prompt platform model contexts style_profile i)))
    (fun e => ret (error_marker i e)).

(** [for i in range(count)], from index [i] on, [n] turns left. *)
Fixpoint social_posts (user_prompt platform : string) (model : option string)
    (contexts : list memory.hit) (style_profile : list (string * analyzer.pyobj))
    (client : unit) (i n : nat) : M C (list string) :=
  match n with
  | O => ret []
  | S n' =>
      (text <- social_post user_prompt platform model contexts style_profile client i ;;
       rest <- social_posts user_prompt platform model contexts style_profile client (S i) n' ;;
       ret (text :: rest))%py
  end.

(** [model or client.model] *)
Definition model_or_default (model : option string) : string :=
  match model with
  | Some (String a m) => String a m
  | _ => client_model
  end.

Definition generate_social (user_prompt : string) (count : Z) (platform : string)
    (model : option string) : M C SocialResult :=
  (contexts <- await (_retrieve_context user_prompt 6) ;;
   style_profile <- await (analyzer.analyze_documents (map analyzer.of_hit contexts)) ;;
   client <- generate.get_groq_client ;;
   results <- social_posts user_prompt platform model contexts style_profile client
                0 (Z.to_nat count) ;;
   let md := String.concat (LF +:+ LF) (map (fun r => "- " +:+ r) results) in
   ret (MkSocialResult (String.concat (LF +:+ LF) results) md count platform
                       (model_or_default model)))%py.

End Generator.

End generator.

(* ===================================================================== *)
(** * Vocabulary of the properties *)
(* ===================================================================== *)

(** Words the statements about [analyzer] use. *)
Module analyzer_spec.
Import analyzer.

(** An ASCII character: the fragment of [str.lower] and of the class [\w]
    that [lower_char] and [is_word_char] cover. *)
Definition is_ascii (c : ascii) : bool := (nat_of_ascii c <? 128)%nat.

(** A digit, an underscore or a lowercase letter. *)
Definition is_lower_word_char (c : ascii) : bool :=
  let n := nat_of_ascii c in
  (((48 <=? n) && (n <=? 57)) || ((97 <=? n) && (n <=? 122)) || (n =? 95))%nat.

(** [counter[key]]: the count of a key, 0 when absent. *)
Definition count_of (c : Counter) (key : string) : nat := default 0%nat (dict_get c key).

(** [words] of the loop body for one document. *)
Definition tokens (doc : document) : list string :=
  findall_words (lower (default "" (doc_content doc))) "".

(** [first_words] of the loop body for one document. *)
Definition opening (doc : document) : string :=
  String.concat " " (take 20 (tokens doc)).

(** All tokens of all documents, in reading order, and the opening of
    each document. *)
Definition all_tokens (docs : list document) : list string := concat (map tokens docs).
Definition all_openings (docs : list document) : list string := map opening docs.

(** The order of [most_common]: larger counts first. *)
Definition by_count_desc (a b : string * nat) : Prop := (snd b <= snd a)%nat.

(** Every character of [s] satisfies [p]. *)
Definition chars_ok (p : ascii -> bool) (s : string) : Prop :=
  Forall (fun c => p c = true) (list_ascii_of_string s).

(** How many documents satisfy [p]. *)
Definition count_docs (p : document -> bool) (docs : list document) : nat :=
  length (List.filter p docs).
End analyzer_spec.

(** Vocabulary for the properties of [groq_client]. *)
Module groq_spec.
Import groq_client.

(** One character: a byte followed by continuation bytes only. *)
Fixpoint all_continuation (h : string) : bool :=
  match h with
  | EmptyString => true
  | String a h' => is_continuation a && all_continuation h'
  end.

Definition is_char (c : string) : bool :=
  match c with
  | String _ h => all_continuation h
  | EmptyString => false
  end.

(** A string that does not begin in the middle of a character. *)
Definition fresh (s : string) : bool :=
  match s with
  | String a _ => negb (is_continuation a)
  | EmptyString => true
  end.

(** A list of characters as [characters] cuts them. *)
Fixpoint segmented (cs : list string) : bool :=
  match cs with
  | [] => true
  | c :: cs' =>
      is_char c && match cs' with [] => true | c' :: _ => fresh c' end && segmented cs'
  end.

(** The characters left by [strip]. *)
Definition trimmed (s : string) : list string :=
  rev (drop_spaces (rev (drop_spaces (characters s)))).

(** The first and the last character of a string, when it has one. *)
Definition first_char (s : string) : option string := head (characters s).
Definition last_char (s : string) : option string := last (characters s).

(** No white space at either end. *)
Definition stripped (s : string) : Prop :=
  (forall c, first_char s = Some c -> is_space_char c = false) /\
  (forall c, last_char s = Some c -> is_space_char c = false).

(** A body that is JSON null, a boolean or a number. *)
Definition is_plain (data : json) : bool :=
  match data with
  | JNull | JBool _ | JInt _ | JFloat _ => true
  | _ => false
  end.
End groq_spec.

(** Integers and strings again, as in the services above. *)
Local Open Scope Z_scope.
Local Open Scope string_scope.

(* ===================================================================== *)
(** * Properties *)
(* ===================================================================== *)

(** ** The digest *)

Example sha256_empty :
  Sha256.digest (encode_utf8 "") =
  [227; 176; 196; 66; 152; 252; 28; 20; 154; 251; 244; 200; 153; 111; 185; 36;
   39; 174; 65; 228; 100; 155; 147; 76; 164; 149; 153; 27; 120; 82; 184; 85].
Proof. vm_compute. reflexivity. Qed.

Example sha256_abc :
  Sha256.digest (encode_utf8 "abc") =
  [186; 120; 22; 191; 143; 1; 207; 234; 65; 65; 64; 222; 93; 174; 34; 35;
   176; 3; 97; 163; 150; 23; 122; 156; 180; 16; 255; 97; 242; 0; 21; 173].
Proof. vm_compute. reflexivity. Qed.

Example sha256_two_blocks :
  Sha256.digest (repeat 97 119) =
  [49; 235; 165; 28; 49; 58; 92; 8; 34; 106; 223; 24; 212; 163; 89; 207;
   223; 216; 210; 232; 22; 177; 63; 74; 249; 82; 247; 234; 101; 132; 220; 251].
Proof. vm_compute. reflexivity. Qed.

Example sha256_block_boundary :
  Sha256.digest (repeat 97 64) =
  [255; 224; 84; 254; 122; 224; 203; 109; 198; 92; 58; 249; 182; 29; 82; 9;
   244; 57; 133; 29; 180; 61; 11; 165; 153; 115; 55; 223; 21; 70; 104; 235].
Proof. vm_compute. reflexivity. Qed.

Lemma digest_length (msg : list Z) : length (Sha256.digest msg) = 32%nat.
Proof.
  unfold Sha256.digest, Sha256.state_bytes.
  rewrite !length_app. reflexivity.
Qed.

(** ** The embedding fallback *)

Section Embedding.
Import memory.

Lemma length_tile {A} (arr : list A) (reps : nat) :
  length (tile arr reps) = (reps * length arr)%nat.
Proof.
  unfold tile. induction reps as [|k IH]; simpl; [reflexivity|].
  rewrite length_app, IH. reflexivity.
Qed.

Lemma ceil_div_covers (a b : nat) : (0 < b)%nat -> (a <= ceil_div a b * b)%nat.
Proof.
  intros Hb. unfold ceil_div.
  pose proof (Nat.div_mod_eq (a + b - 1) b) as E.
  pose proof (Nat.mod_upper_bound (a + b - 1) b ltac:(lia)) as U.
  nia.
Qed.

Lemma length_expand (arr : list R) (dim : nat) :
  (0 < length arr)%nat -> length (expand arr dim) = dim.
Proof.
  intros Hpos. unfold expand.
  destruct (length arr <? dim)%nat eqn:E.
  - apply Nat.ltb_lt in E. rewrite length_take, length_tile.
    pose proof (ceil_div_covers dim (length arr) Hpos). lia.
  - apply Nat.ltb_ge in E. rewrite length_take. lia.
Qed.


End Embedding.

Section Norm.
Import memory.
Local Open Scope R_scope.

Lemma sum_squares_nonneg l : 0 <= sum_squares l.
Proof. unfold sum_squares. induction l as [|x l IH]; simpl; [lra|]. nra. Qed.

Lemma sum_squares_app l1 l2 : sum_squares (l1 ++ l2) = sum_squares l1 + sum_squares l2.
Proof. unfold sum_squares. induction l1 as [|x l IH]; simpl; [lra|]. rewrite IH. lra. Qed.

Lemma sum_squares_scale l d :
  d <> 0 -> sum_squares (map (fun x => x / d) l) = sum_squares l / (d * d).
Proof.
  intros Hd. unfold sum_squares. induction l as [|x l IH]; simpl.
  - field. exact Hd.
  - rewrite IH. field. exact Hd.
Qed.

Lemma l2_norm_scale l d : 0 < d -> l2_norm (map (fun x => x / d) l) = l2_norm l / d.
Proof.
  intros Hd. unfold l2_norm.
  rewrite sum_squares_scale by lra.
  rewrite sqrt_div_alt by nra.
  rewrite sqrt_square by lra. reflexivity.
Qed.

Lemma l2_norm_nonneg l : 0 <= l2_norm l.
Proof. apply sqrt_pos. Qed.

(** A digest with a byte other than zero has squares summing to at least 1. *)
Lemma sum_squares_bytes (h : list Z) :
  nonzero_digest h = true -> 1 <= sum_squares (map IZR h).
Proof.
  unfold nonzero_digest. induction h as [|b h IH]; simpl; [discriminate|].
  intros Hex. change (1 <= IZR b * IZR b + sum_squares (map IZR h)).
  pose proof (sum_squares_nonneg (map IZR h)) as Hs.
  destruct (b =? 0)%Z eqn:Eb; simpl in Hex.
  - specialize (IH Hex). nra.
  - apply Z.eqb_neq in Eb.
    assert (1 <= b * b)%Z as Hz by nia.
    apply IZR_le in Hz. rewrite mult_IZR in Hz. lra.
Qed.

(** From the digest's length on, the expanded array starts with the digest. *)
Lemma expand_prefix (arr : list R) (dim : nat) :
  (0 < length arr <= dim)%nat -> exists rest, expand arr dim = (arr ++ rest)%list.
Proof.
  intros [Hpos Hle]. unfold expand.
  destruct (length arr <? dim)%nat eqn:E.
  - apply Nat.ltb_lt in E.
    pose proof (ceil_div_covers dim (length arr) Hpos) as Hc.
    destruct (ceil_div dim (length arr)) as [|k]; [simpl in Hc; lia|].
    unfold tile. simpl. rewrite take_app_ge by lia.
    eexists. reflexivity.
  - apply Nat.ltb_ge in E. exists []. rewrite take_ge by lia. 
    symmetry. apply app_nil_r.
Qed.

Lemma tiled_norm_ge_1 (text : string) (dim : nat) :
  (32 <= dim)%nat ->
  nonzero_digest (Sha256.digest (encode_utf8 text)) = true ->
  1 <= l2_norm (expand (map IZR (Sha256.digest (encode_utf8 text))) dim).
Proof.
  intros Hdim Hnz.
  destruct (expand_prefix (map IZR (Sha256.digest (encode_utf8 text))) dim) as [rest ->].
  { rewrite length_map, digest_length. lia. }
  unfold l2_norm. rewrite sum_squares_app.
  pose proof (sum_squares_bytes _ Hnz). pose proof (sum_squares_nonneg rest).
  rewrite <- sqrt_1. apply sqrt_le_1_alt. lra.
Qed.

(** In exact arithmetic the fallback vector has norm n / (n + 1e-8), for n
    the norm of the tiled digest bytes. *)
Lemma simple_text_to_vector_norm (text : string) (dim : nat) :
  let n := l2_norm (expand (map IZR (Sha256.digest (encode_utf8 text))) dim) in
  l2_norm (_simple_text_to_vector text dim) = n / (n + 1e-8).
Proof.
  intros n. unfold _simple_text_to_vector. fold n.
  apply l2_norm_scale. pose proof (l2_norm_nonneg (expand (map IZR (Sha256.digest (encode_utf8 text))) dim)).
  fold n in H. lra.
Qed.

Lemma simple_text_to_vector_unit (text : string) (dim : nat) :
  (32 <= dim)%nat ->
  nonzero_digest (Sha256.digest (encode_utf8 text)) = true ->
  Rabs (l2_norm (_simple_text_to_vector text dim) - 1) <= 1e-8.
Proof.
  intros Hdim Hnz. rewrite simple_text_to_vector_norm.
  pose proof (tiled_norm_ge_1 text dim Hdim Hnz) as Hn.
  set (n := l2_norm _) in *.
  replace (n / (n + 1e-8) - 1) with (- (1e-8 / (n + 1e-8))) by (field; lra).
  rewrite Rabs_Ropp, Rabs_pos_eq.
  - apply (Rmult_le_reg_r (n + 1e-8)); [lra|].
    replace (1e-8 / (n + 1e-8) * (n + 1e-8)) with 1e-8 by (field; lra). nra.
  - apply Rlt_le, Rdiv_lt_0_compat; lra.
Qed.

(** A digest of zero bytes only would give the zero vector. *)
Lemma sum_squares_zero (h : list Z) :
  nonzero_digest h = false -> sum_squares (map IZR h) = 0.
Proof.
  unfold nonzero_digest. induction h as [|b h IH]; simpl; [reflexivity|].
  intros Hex. apply orb_false_iff in Hex as [Hb Hex].
  apply negb_false_iff, Z.eqb_eq in Hb. subst b.
  change (0 * 0 + sum_squares (map IZR h) = 0). rewrite (IH Hex). lra.
Qed.
End Norm.

(** ** The embedding fallback under rounding *)

Section Rounding.
Import memory.
Local Open Scope R_scope.

Lemma be_bytes_range (n : nat) (x : Z) :
  Forall (fun b => (0 <= b < 256)%Z) (Sha256.be_bytes n x).
Proof.
  induction n as [|k IH]; cbn [Sha256.be_bytes]; constructor; [|exact IH].
  apply Z.mod_pos_bound. lia.
Qed.

Lemma digest_range (msg : list Z) :
  Forall (fun b => (0 <= b < 256)%Z) (Sha256.digest msg).
Proof.
  unfold Sha256.digest, Sha256.state_bytes.
  repeat (apply Forall_app; split); apply be_bytes_range.
Qed.

Lemma all_zero_digest (h : list Z) :
  nonzero_digest h = false -> Forall (fun b => b = 0%Z) h.
Proof.
  unfold nonzero_digest. induction h as [|b h IH]; cbn [existsb]; intros Hex; constructor.
  - apply orb_false_iff in Hex as [Hb _]. apply negb_false_iff, Z.eqb_eq in Hb. exact Hb.
  - apply IH. apply orb_false_iff in Hex as [_ Hex]. exact Hex.
Qed.

(** A value within the relative error [tol] of [x >= 0]. *)
Lemma relative_error_bounds (tol x v : R) :
  0 <= x -> Rabs (v - x) <= tol * x -> (1 - tol) * x <= v <= (1 + tol) * x.
Proof.
  intros Hx Hv. unfold Rabs in Hv. destruct (Rcase_abs (v - x)) in Hv; lra.
Qed.

(** Components between two multiples of the components of [arr] give a
    norm between the same multiples of the norm of [arr]. *)
Lemma sum_squares_between (lo hi : R) (f : R -> R) (arr : list R) :
  0 <= lo ->
  Forall (fun x => 0 <= x /\ lo * x <= f x <= hi * x) arr ->
  lo * lo * sum_squares arr <= sum_squares (map f arr) <= hi * hi * sum_squares arr.
Proof.
  intros Hlo Hall. unfold sum_squares.
  induction Hall as [|x l [Hx Hf] _ IH]; cbn [map fold_right]; [lra|].
  assert (0 <= lo * x) by nra.
  assert (lo * x * (lo * x) <= f x * f x) by nra.
  assert (f x * f x <= hi * x * (hi * x)) by nra.
  nra.
Qed.

Lemma l2_norm_between (lo hi : R) (f : R -> R) (arr : list R) :
  0 <= lo -> lo <= hi ->
  Forall (fun x => 0 <= x /\ lo * x <= f x <= hi * x) arr ->
  lo * l2_norm arr <= l2_norm (map f arr) <= hi * l2_norm arr.
Proof.
  intros Hlo Hhi Hall. destruct (sum_squares_between lo hi f arr Hlo Hall) as [Hl Hh].
  pose proof (sum_squares_nonneg arr) as Hs.
  unfold l2_norm. split.
  - replace (lo * sqrt (sum_squares arr)) with (sqrt (lo * lo * sum_squares arr)).
    + apply sqrt_le_1_alt. exact Hl.
    + rewrite sqrt_mult by nra. rewrite sqrt_square by lra. reflexivity.
  - replace (hi * sqrt (sum_squares arr)) with (sqrt (hi * hi * sum_squares arr)).
    + apply sqrt_le_1_alt. exact Hh.
    + rewrite sqrt_mult by nra. rewrite sqrt_square by lra. reflexivity.
Qed.

Lemma div_le_of_le_mul (a b d : R) : 0 < d -> a <= b * d -> a / d <= b.
Proof.
  intros Hd H. apply (Rmult_le_reg_r d); [exact Hd|].
  replace (a / d * d) with a by (field; lra). exact H.
Qed.

Lemma le_div_of_mul_le (a b d : R) : 0 < d -> b * d <= a -> b <= a / d.
Proof.
  intros Hd H. apply (Rmult_le_reg_r d); [exact Hd|].
  replace (a / d * d) with a by (field; lra). exact H.
Qed.

Lemma Forall_tile {A} (P : A -> Prop) (arr : list A) (reps : nat) :
  Forall P arr -> Forall P (tile arr reps).
Proof.
  intros H. unfold tile. induction reps as [|k IH]; cbn [repeat concat]; [constructor|].
  apply Forall_app. split; assumption.
Qed.

Lemma Forall_expand (P : R -> Prop) (arr : list R) (dim : nat) :
  Forall P arr -> Forall P (expand arr dim).
Proof.
  intros H. unfold expand. destruct (length arr <? dim)%nat.
  - apply Forall_take, Forall_tile, H.
  - apply Forall_take, H.
Qed.

Lemma bytes_nonneg (h : list Z) :
  Forall (fun b => (0 <= b < 256)%Z) h -> Forall (fun x => 0 <= x) (map IZR h).
Proof.
  intros H. apply Forall_fmap. eapply Forall_impl; [exact H|].
  intros b Hb. cbn in *. apply IZR_le. lia.
Qed.

Lemma zero_bytes (h : list Z) :
  Forall (fun b => b = 0%Z) h -> Forall (fun x => x = 0) (map IZR h).
Proof.
  intros H. apply Forall_fmap. eapply Forall_impl; [exact H|].
  intros b ->. reflexivity.
Qed.

(** The norm of the normalised array, for operations accurate to [tol]. *)
Lemma normalised_norm {N : Numpy} (tol : R) (arr : list R) :
  0 <= tol <= 1 / 100 ->
  Forall (fun x => 0 <= x) arr ->
  1 <= l2_norm arr ->
  accurate tol arr ->
  Rabs (l2_norm (map (fun x => np_divide x (np_add (np_norm arr) 1e-8)) arr) - 1)
    <= 4 * tol + 1e-8.
Proof.
  intros [Ht0 Ht1] Hpos Hn (Hnorm & Hadd & Hdiv). cbv zeta in Hnorm, Hadd, Hdiv.
  set (n := l2_norm arr) in *. set (n' := np_norm arr) in *.
  set (d := np_add n' 1e-8) in *.
  apply relative_error_bounds in Hnorm; [|lra].
  assert (0 <= n' + 1e-8) as Hn' by nra.
  apply relative_error_bounds in Hadd; [|exact Hn'].
  assert ((1 - tol) * ((1 - tol) * n) <= d) as Hdlo by nra.
  assert (d <= (1 + tol) * ((1 + tol) * n + 1e-8)) as Hdhi by nra.
  assert (0 < d) as Hd by nra.
  destruct (l2_norm_between ((1 - tol) / d) ((1 + tol) / d)
              (fun x => np_divide x d) arr) as [Hlo Hhi].
  - apply Rlt_le, Rdiv_lt_0_compat; lra.
  - apply div_le_of_le_mul; [exact Hd|].
    replace ((1 + tol) / d * d) with (1 + tol) by (field; lra). lra.
  - rewrite Forall_forall in Hpos, Hdiv. apply Forall_forall. intros x Hx.
    specialize (Hpos x Hx). specialize (Hdiv x Hx). split; [exact Hpos|].
    assert (0 <= x / d) as Hxd by (apply Rmult_le_pos; [exact Hpos|apply Rlt_le, Rinv_0_lt_compat, Hd]).
    apply relative_error_bounds in Hdiv; [|exact Hxd].
    replace ((1 - tol) / d * x) with ((1 - tol) * (x / d)) by (field; lra).
    replace ((1 + tol) / d * x) with ((1 + tol) * (x / d)) by (field; lra).
    exact Hdiv.
  - fold n in Hlo, Hhi.
    assert ((1 - tol) / d * n = (1 - tol) * n / d) as El by (field; lra).
    assert ((1 + tol) / d * n = (1 + tol) * n / d) as Eh by (field; lra).
    rewrite El in Hlo. rewrite Eh in Hhi.
    assert ((1 + tol) * n / d <= 1 + 4 * tol + 1e-8) as Hup.
    { apply div_le_of_le_mul; [exact Hd|].
      assert ((1 + tol) * n <= (1 + 4 * tol) * ((1 - tol) * ((1 - tol) * n))) by nra.
      nra. }
    assert (1 - 4 * tol - 1e-8 <= (1 - tol) * n / d) as Hdown.
    { apply le_div_of_mul_le; [exact Hd|].
      assert ((1 - 4 * tol - 1e-8) * ((1 + tol) * ((1 + tol) * n + 1e-8 * n)) <= (1 - tol) * n) by nra.
      assert (0 <= 1 - 4 * tol - 1e-8) by lra.
      assert (d <= (1 + tol) * ((1 + tol) * n + 1e-8 * n)) by nra.
      nra. }
    unfold Rabs. destruct (Rcase_abs _); lra.
Qed.

(** The divisor is positive. *)
Lemma accurate_divisor_pos {N : Numpy} (tol : R) (arr : list R) :
  0 <= tol <= 1 / 100 -> accurate tol arr -> 0 < np_add (np_norm arr) 1e-8.
Proof.
  intros [Ht0 Ht1] (Hnorm & Hadd & _). cbv zeta in Hnorm, Hadd.
  pose proof (l2_norm_nonneg arr) as Hn.
  apply relative_error_bounds in Hnorm; [|exact Hn].
  assert (0 <= np_norm arr + 1e-8) as Hn' by nra.
  apply relative_error_bounds in Hadd; [|exact Hn'].
  nra.
Qed.

Lemma normalised_nonneg {N : Numpy} (tol : R) (arr : list R) :
  0 <= tol <= 1 / 100 ->
  Forall (fun x => 0 <= x) arr ->
  accurate tol arr ->
  Forall (fun x => 0 <= x) (map (fun x => np_divide x (np_add (np_norm arr) 1e-8)) arr).
Proof.
  intros Ht Hpos Hacc. pose proof (accurate_divisor_pos tol arr Ht Hacc) as Hd.
  destruct Hacc as (_ & _ & Hdiv). cbv zeta in Hdiv.
  apply Forall_fmap. rewrite Forall_forall in Hpos, Hdiv. apply Forall_forall.
  intros x Hx. specialize (Hpos x Hx). specialize (Hdiv x Hx). unfold compose. cbv beta.
  set (d := np_add (np_norm arr) 1e-8) in *.
  assert (0 <= x / d) as Hxd
    by (apply Rmult_le_pos; [exact Hpos|apply Rlt_le, Rinv_0_lt_compat, Hd]).
  apply relative_error_bounds in Hdiv; [|exact Hxd]. nra.
Qed.

Lemma normalised_zero {N : Numpy} (tol : R) (arr : list R) :
  Forall (fun x => x = 0) arr ->
  accurate tol arr ->
  Forall (fun x => x = 0) (map (fun x => np_divide x (np_add (np_norm arr) 1e-8)) arr).
Proof.
  intros Hz (_ & _ & Hdiv). cbv zeta in Hdiv.
  apply Forall_fmap. rewrite Forall_forall in Hz, Hdiv. apply Forall_forall.
  intros x Hx. specialize (Hdiv x Hx). rewrite (Hz x Hx) in *. unfold compose. cbv beta.
  set (v := np_divide 0 _) in *.
  replace (0 / np_add (np_norm arr) 1e-8) with 0 in Hdiv by (unfold Rdiv; ring).
  rewrite Rmult_0_r, Rminus_0_r in Hdiv.
  pose proof (Rabs_pos v). unfold Rabs in *. destruct (Rcase_abs v); lra.
Qed.

(** Exact arithmetic is accurate to any tolerance. *)
Lemma exact_accurate (tol : R) (arr : list R) :
  0 <= tol -> Forall (fun x => 0 <= x) arr -> accurate (N := exact) tol arr.
Proof.
  intros Ht Hpos. unfold accurate. cbn [np_norm np_add np_divide exact].
  pose proof (l2_norm_nonneg arr) as Hn.
  split; [|split].
  - rewrite Rminus_diag, Rabs_R0. nra.
  - rewrite Rminus_diag, Rabs_R0. nra.
  - eapply Forall_impl; [exact Hpos|]. intros x Hx. cbv beta in *.
    rewrite Rminus_diag, Rabs_R0.
    apply Rmult_le_pos; [exact Ht|].
    apply Rmult_le_pos; [exact Hx|]. apply Rlt_le, Rinv_0_lt_compat. lra.
Qed.

(** The array that [_simple_text_to_vector] normalises. *)
Lemma tiled_bytes_nonneg (text : string) (dim : nat) :
  Forall (fun x => 0 <= x) (expand (map IZR (Sha256.digest (encode_utf8 text))) dim).
Proof. apply Forall_expand, bytes_nonneg, digest_range. Qed.

(** The fallback vector under rounding. *)
Lemma simple_text_to_vector_rounded {N : Numpy} (tol : R) (text : string) (dim : nat) :
  (32 <= dim)%nat ->
  0 <= tol <= 1 / 100 ->
  accurate tol (expand (map IZR (Sha256.digest (encode_utf8 text))) dim) ->
  let v := _simple_text_to_vector text dim in
  let nz := nonzero_digest (Sha256.digest (encode_utf8 text)) in
  Forall (fun x => 0 <= x) v /\
  (nz = true -> Rabs (l2_norm v - 1) <= 4 * tol + 1e-8) /\
  (nz = false -> Forall (fun x => x = 0) v).
Proof.
  intros Hdim Ht Hacc v nz. unfold v, _simple_text_to_vector.
  split; [|split].
  - apply (normalised_nonneg tol); [exact Ht|apply tiled_bytes_nonneg|exact Hacc].
  - intros Hnz. apply normalised_norm; [exact Ht|apply tiled_bytes_nonneg| |exact Hacc].
    apply tiled_norm_ge_1; assumption.
  - intros Hz. apply (normalised_zero tol); [|exact Hacc].
    apply Forall_expand, zero_bytes, all_zero_digest, Hz.
Qed.
End Rounding.

(** ** The style analyzer *)

Section Analyzer.
Import analyzer.

Example findall_words_example :
  findall_words (lower "Alpha, beta_1  ALPHA!") "" = ["alpha"; "beta_1"; "alpha"].
Proof. reflexivity. Qed.

Example analyze_two_documents :
  _analyze [Document (Some "alpha beta alpha"); Document (Some "beta gamma")] =
  [("avg_length_words", PyFloat (5 # 2));
   ("median_length_words", PyInt 3);
   ("most_common_words", PyPairs [("alpha", 2%nat); ("beta", 2%nat); ("gamma", 1%nat)]);
   ("common_openings", PyPairs [("alpha beta alpha", 1%nat); ("beta gamma", 1%nat)])].
Proof. vm_compute. reflexivity. Qed.

Lemma insert_asc_perm x l : Permutation (insert_asc x l) (x :: l).
Proof.
  induction l as [|y l IH]; simpl; [reflexivity|].
  destruct (x <=? y)%nat; [reflexivity|].
  rewrite IH. apply perm_swap.
Qed.

Lemma sorted_perm l : Permutation (sorted l) l.
Proof.
  unfold sorted. induction l as [|x l IH]; simpl; [reflexivity|].
  rewrite insert_asc_perm, IH. reflexivity.
Qed.

Lemma insert_asc_sorted x l : Sorted le l -> Sorted le (insert_asc x l).
Proof.
  induction l as [|y l IH]; simpl; intros Hs.
  - repeat constructor.
  - destruct (x <=? y)%nat eqn:E.
    + apply Nat.leb_le in E. constructor; [exact Hs|]. constructor. exact E.
    + apply Nat.leb_gt in E. inversion Hs as [|? ? Hs' Hhd]; subst.
      constructor; [apply IH; exact Hs'|].
      destruct l as [|z l]; simpl.
      * constructor. lia.
      * destruct (x <=? z)%nat; constructor; [lia|].
        inversion Hhd; subst. assumption.
Qed.

Lemma sorted_sorted l : Sorted le (sorted l).
Proof.
  unfold sorted. induction l as [|x l IH]; simpl; [constructor|].
  apply insert_asc_sorted, IH.
Qed.

Lemma lengths_fold (docs : list document) (a : acc) :
  lengths (fold_left step docs a) = (lengths a ++ map token_count docs)%list.
Proof.
  revert a. induction docs as [|d docs IH]; intros a; simpl.
  - symmetry. apply app_nil_r.
  - rewrite IH. simpl. rewrite <- app_assoc. reflexivity.
Qed.

Lemma lengths_scan (docs : list document) :
  lengths (scan docs) = map token_count docs.
Proof. unfold scan. rewrite lengths_fold. reflexivity. Qed.
End Analyzer.

(** C10. For a non-empty document sequence the profile's
    "median_length_words" is the element at zero-based index n/2 of the
    sorted sequence of per-document token counts, n the number of
    documents: the middle element, and for even n the upper of the two. *)
Theorem analyze_median_upper_middle (documents : list analyzer.document) :
  documents <> [] ->
  exists (s : list nat) (m : nat),
    Permutation s (map analyzer.token_count documents) /\
    Sorted le s /\
    s !! (length documents / 2)%nat = Some m /\
    analyzer.dict_get (analyzer._analyze documents) "median_length_words"
      = Some (analyzer.PyInt (Z.of_nat m)).
Proof.
  intros Hne.
  set (s := analyzer.sorted (map analyzer.token_count documents)).
  assert (length s = length documents) as Hlen.
  { unfold s. rewrite (Permutation_length (sorted_perm _)). apply length_map. }
  assert (length documents / 2 < length s)%nat as Hidx.
  { rewrite Hlen. destruct documents; [congruence|]. apply Nat.div_lt; simpl; lia. }
  destruct (lookup_lt_is_Some_2 s _ Hidx) as [m Hm].
  exists s, m. repeat split.
  - apply sorted_perm.
  - apply sorted_sorted.
  - exact Hm.
  - destruct documents as [|d ds]; [congruence|].
    unfold analyzer._analyze. cbn [analyzer.dict_get String.eqb Ascii.eqb Bool.eqb].
    rewrite lengths_scan, length_map. fold s.
    rewrite nth_lookup, Hm. reflexivity.
Qed.

(** Two documents of three and two tokens: the median is three. *)
Lemma analyze_median_upper_middle_witness :
  exists (s : list nat) (m : nat),
    Permutation s (map analyzer.token_count
       [analyzer.Document (Some "alpha beta alpha"); analyzer.Document (Some "beta gamma")]) /\
    Sorted le s /\
    s !! (2 / 2)%nat = Some m /\
    analyzer.dict_get (analyzer._analyze
       [analyzer.Document (Some "alpha beta alpha"); analyzer.Document (Some "beta gamma")])
       "median_length_words" = Some (analyzer.PyInt (Z.of_nat m)).
Proof.
  apply (analyze_median_upper_middle
    [analyzer.Document (Some "alpha beta alpha"); analyzer.Document (Some "beta gamma")]).
  discriminate.
Defined.

(** C2 (as the code has it). For the empty document sequence the analysis
    does not fail and returns the sentinel dictionary
    {"summary": "no_docs", "word_freq": {}, "avg_length": 0}; that dictionary
    has no "avg_length_words", "most_common_words" or "common_openings"
    key. *)
Theorem analyze_empty_sentinel :
  analyzer._analyze [] =
    [("summary", analyzer.PyStr "no_docs"); ("word_freq", analyzer.PyDict []);
     ("avg_length", analyzer.PyInt 0)] /\
  analyzer.dict_get (analyzer._analyze []) "avg_length" = Some (analyzer.PyInt 0) /\
  analyzer.dict_get (analyzer._analyze []) "avg_length_words" = None /\
  analyzer.dict_get (analyzer._analyze []) "most_common_words" = None /\
  analyzer.dict_get (analyzer._analyze []) "common_openings" = None /\
  (forall (C : Type) (w : World C),
     analyzer.analyze_documents [] w = (Ok (analyzer._analyze []), w)).
Proof. repeat split. Qed.

(** C2 as stated fails: the result for the empty sequence is not a profile
    with avg_length_words = 0 and empty word and opening lists. *)
Lemma analyze_empty_not_zero_profile :
  ~ (analyzer.dict_get (analyzer._analyze []) "avg_length_words" = Some (analyzer.PyInt 0) /\
     analyzer.dict_get (analyzer._analyze []) "most_common_words" = Some (analyzer.PyPairs []) /\
     analyzer.dict_get (analyzer._analyze []) "common_openings" = Some (analyzer.PyPairs [])).
Proof. intros [E _]. discriminate E. Qed.

(** ** The generation routes *)

Section RouteFacts.
Import generate.
Context {C : Type} `{Collection C}.

Lemma load_store_same r l (w : World C) : load_list r (store_list r l w) = l.
Proof.
  destruct r as [[] u]; unfold load_list, store_list; cbn;
    rewrite lookup_insert_eq; reflexivity.
Qed.

Lemma load_store_other r r' l (w : World C) :
  r' <> r -> load_list r' (store_list r l w) = load_list r' w.
Proof.
  destruct r as [ch u], r' as [ch' u']. intros Hne.
  unfold load_list, store_list; destruct ch, ch'; cbn; try reflexivity;
    rewrite lookup_insert_ne; congruence.
Qed.

Lemma store_store r l1 l2 (w : World C) :
  store_list r l2 (store_list r l1 w) = store_list r l2 w.
Proof.
  destruct r as [[] u]; unfold store_list; cbn; rewrite insert_insert_eq; reflexivity.
Qed.

Lemma load_set_groq_calls r n (w : World C) :
  load_list r (set_groq_calls n w) = load_list r w.
Proof. destruct r as [[] u]; reflexivity. Qed.

Lemma collection_store_list r l (w : World C) :
  collection (store_list r l w) = collection w.
Proof. destruct r as [[] u]; reflexivity. Qed.

(** Reading [d[user]] may bind the key, but shows the same lists. *)
Lemma histories_getitem_run ch user (w : World C) :
  exists w1,
    histories_getitem ch user w = (Ok (ListRef ch user), w1) /\
    collection w1 = collection w /\
    groq_service w1 = groq_service w /\ groq_calls w1 = groq_calls w /\
    heap_addr w1 = heap_addr w /\
    (forall r, load_list r w1 = load_list r w).
Proof.
  unfold histories_getitem.
  destruct (histories ch w !! user) as [h|] eqn:Hh.
  - exists w. repeat split; reflexivity.
  - exists (store_list (ListRef ch user) [] w).
    split; [reflexivity|]. split; [apply collection_store_list|].
    split; [destruct ch; reflexivity|]. split; [destruct ch; reflexivity|].
    split; [destruct ch; reflexivity|].
    intros r. destruct (decide (r = ListRef ch user)) as [->|Hne].
    + rewrite load_store_same. unfold load_list. cbn [ref_channel ref_user].
      rewrite Hh. reflexivity.
    + apply load_store_other, Hne.
Qed.

(** One run of the body the two routes share. *)
Lemma route_body_run ch build_prompt request (w : World C) :
  exists w1,
    collection w1 = collection w /\
    (forall r, load_list r w1 = load_list r w) /\
    route_body ch build_prompt request w =
      match groq_service w (groq_calls w) (llm_call_of build_prompt ch request w) with
      | Ok text =>
          (Ok (Response text text "groq" (model request)),
           store_list (ListRef ch (user_id request))
             (append_trim (history_of ch (user_id request) w)
                          (exchange (prompt request) text)) w1)
      | Raise e => (Raise e, w1)
      end.
Proof.
  destruct (histories_getitem_run ch (user_id request) w)
    as (w0 & Hget & Hc & Hs & Hn & Ha & Hl).
  exists (set_groq_calls (S (groq_calls w)) w0).
  split; [exact Hc|]. split.
  { intros r. rewrite load_set_groq_calls. apply Hl. }
  unfold route_body, bind, get_groq_client, call_async, ret. 
  rewrite Hget. unfold deref, repr_coroutine, await, generate_text.
  cbv beta iota. rewrite Hs, Hn, Ha, Hl.
  unfold llm_call_of, history_of.
  destruct (groq_service w (groq_calls w) _) as [text|e]; [|reflexivity].
  unfold list_append, bind, deref, assign. cbv beta iota.
  rewrite load_set_groq_calls, Hl, load_store_same.
  unfold append_trim. cbv zeta.
  destruct (MAX_HISTORY <? length _)%nat eqn:Hlen.
  - unfold list_pop0, bind, deref, assign, ret. cbv beta iota.
    rewrite load_store_same.
    destruct (load_list _ w ++ [_])%list as [|x l'] eqn:Hl'.
    + apply Nat.ltb_lt in Hlen. simpl in Hlen. unfold MAX_HISTORY in Hlen. lia.
    + cbv beta iota. rewrite store_store. reflexivity.
  - reflexivity.
Qed.
End RouteFacts.

Section HandleFacts.
Import generate.
Context {C : Type} `{Collection C}.

(** One request through either route. *)
Lemma handle_run ch request (w : World C) :
  exists w1,
    collection w1 = collection w /\
    (forall r, load_list r w1 = load_list r w) /\
    handle ch request w =
      match groq_service w (groq_calls w)
              (llm_call_of (match ch with Blog => blog_prompt | Social => social_prompt end)
                           ch request w) with
      | Ok text =>
          (Ok (Response text text "groq" (model request)),
           store_list (ListRef ch (user_id request))
             (append_trim (history_of ch (user_id request) w)
                          (exchange (prompt request) text)) w1)
      | Raise e => (Raise (HTTPException 500 (exn_str e)), w1)
      end.
Proof.
  destruct ch; cbn [handle]; unfold generate_blog_route, generate_social_route, try_except.
  - destruct (route_body_run Blog blog_prompt request w) as (w1 & Hc & Hl & ->).
    exists w1. split; [exact Hc|]. split; [exact Hl|].
    destruct (groq_service w (groq_calls w) _); reflexivity.
  - destruct (route_body_run Social social_prompt request w) as (w1 & Hc & Hl & ->).
    exists w1. split; [exact Hc|]. split; [exact Hl|].
    destruct (groq_service w (groq_calls w) _); reflexivity.
Qed.

(** Neither route ever reaches the collection. *)
Lemma handle_collection ch request (w : World C) :
  collection (snd (handle ch request w)) = collection w.
Proof.
  destruct (handle_run ch request w) as (w1 & Hc & _ & ->).
  destruct (groq_service w (groq_calls w) _); cbn [snd];
    [rewrite collection_store_list|]; exact Hc.
Qed.

(** A failed request shows every history as it was. *)
Lemma handle_failure_histories ch request (w : World C) e :
  fst (handle ch request w) = Raise e ->
  forall ch' user, history_of ch' user (snd (handle ch request w)) = history_of ch' user w.
Proof.
  destruct (handle_run ch request w) as (w1 & _ & Hl & ->).
  destruct (groq_service w (groq_calls w) _); cbn [fst snd]; [discriminate|].
  intros _ ch' user. apply Hl.
Qed.

(** A request that succeeds appends its exchange to the user's history on
    its channel, trimmed, and to no other history. *)
Lemma handle_success_histories ch request (w : World C) response :
  fst (handle ch request w) = Ok response ->
  forall ch' user,
    history_of ch' user (snd (handle ch request w)) =
      if decide (ch = ch' /\ user_id request = user)
      then append_trim (history_of ch' user w) (exchange (prompt request) (text response))
      else history_of ch' user w.
Proof.
  destruct (handle_run ch request w) as (w1 & _ & Hl & ->).
  destruct (groq_service w (groq_calls w) _) as [t|]; cbn [fst snd]; [|discriminate].
  intros [= <-] ch' user. cbn [text]. unfold history_of.
  destruct (decide (ch = ch' /\ user_id request = user)) as [[<- <-]|Hne].
  - apply load_store_same.
  - rewrite load_store_other; [apply Hl|]. intros [= -> ->]. apply Hne. split; reflexivity.
Qed.

Lemma length_last_n {A} (n : nat) (l : list A) : length (last_n n l) = Nat.min n (length l).
Proof. unfold last_n. rewrite length_drop. lia. Qed.

Lemma append_trim_last_n (h : list string) (x : string) :
  (length h <= MAX_HISTORY)%nat -> append_trim h x = last_n MAX_HISTORY (h ++ [x]).
Proof.
  intros Hlen. unfold append_trim, last_n. cbv zeta.
  rewrite length_app. cbn [length].
  destruct (MAX_HISTORY <? length h + 1)%nat eqn:E.
  - apply Nat.ltb_lt in E. f_equal. lia.
  - apply Nat.ltb_ge in E. replace (length h + 1 - MAX_HISTORY)%nat with 0%nat by lia.
    reflexivity.
Qed.

Lemma last_n_absorb {A} (n : nat) (l es : list A) :
  last_n n (last_n n l ++ es) = last_n n (l ++ es).
Proof.
  unfold last_n. rewrite !length_app, length_drop.
  destruct (Nat.le_gt_cases (length l) n) as [Hle|Hgt].
  - replace (length l - n)%nat with 0%nat by lia. rewrite drop_0, Nat.sub_0_r. reflexivity.
  - rewrite <- (drop_app_le l es (length l - n)) by lia.
    rewrite drop_drop. f_equal. lia.
Qed.

Lemma entries_cons_ok ch user ch0 request response requests outcomes :
  entries ch user ((ch0, request) :: requests) (Ok response :: outcomes) =
    ((if decide (ch0 = ch /\ user_id request = user)
      then [exchange (prompt request) (text response)] else []) ++
     entries ch user requests outcomes)%list.
Proof. cbn [entries]. destruct (decide _); reflexivity. Qed.

Lemma serve_histories requests : forall (w : World C) ch user,
  (length (history_of ch user w) <= MAX_HISTORY)%nat ->
  history_of ch user (snd (serve requests w)) =
    last_n MAX_HISTORY
      (history_of ch user w ++ entries ch user requests (fst (serve requests w))).
Proof.
  induction requests as [|[ch0 request] rest IH]; intros w ch user Hlen.
  - cbn. rewrite app_nil_r. unfold last_n.
    replace (length (history_of ch user w) - MAX_HISTORY)%nat with 0%nat by lia.
    reflexivity.
  - cbn [serve].
    destruct (handle ch0 request w) as [r w1] eqn:Hh.
    destruct (serve rest w1) as [rs w2] eqn:Hs. cbn [fst snd].
    assert (w2 = snd (serve rest w1)) as -> by (rewrite Hs; reflexivity).
    assert (rs = fst (serve rest w1)) as -> by (rewrite Hs; reflexivity).
    assert (w1 = snd (handle ch0 request w)) as Hw1 by (rewrite Hh; reflexivity).
    destruct r as [response|e].
    + pose proof (handle_success_histories ch0 request w response
                    ltac:(rewrite Hh; reflexivity) ch user) as Hstep.
      rewrite <- Hw1 in Hstep. rewrite entries_cons_ok.
      destruct (decide (ch0 = ch /\ user_id request = user)) as [Heq|Hne].
      * rewrite append_trim_last_n in Hstep by exact Hlen.
        rewrite IH, Hstep.
        -- rewrite last_n_absorb, <- app_assoc. reflexivity.
        -- rewrite Hstep, length_last_n. lia.
      * rewrite IH, Hstep; [reflexivity|]. rewrite Hstep. exact Hlen.
    + pose proof (handle_failure_histories ch0 request w e
                    ltac:(rewrite Hh; reflexivity) ch user) as Hstep.
      rewrite <- Hw1 in Hstep. cbn [entries].
      rewrite IH, Hstep; [reflexivity|]. rewrite Hstep. exact Hlen.
Qed.
End HandleFacts.

(** C8. Requests served one after the other, on either channel and for any
    users, starting from a history of at most 20 entries: the history of
    [user] on [ch] afterwards is the last 20 entries of the old history
    followed by the exchanges of that user's successful requests on that
    channel, in order.  So the bound of 20 is preserved by every request,
    and once more than 20 entries have been appended exactly 20 remain, the
    oldest dropped first. *)
Theorem history_capacity {C : Type} `{Collection C}
    (requests : list (generate.channel * generate.GenerateRequest))
    (w : World C) (ch : generate.channel) (user : string) :
  (length (generate.history_of ch user w) <= generate.MAX_HISTORY)%nat ->
  let outcomes := fst (generate.serve requests w) in
  let w' := snd (generate.serve requests w) in
  let added := generate.entries ch user requests outcomes in
  generate.history_of ch user w' =
    generate.last_n generate.MAX_HISTORY (generate.history_of ch user w ++ added) /\
  (length (generate.history_of ch user w') <= generate.MAX_HISTORY)%nat /\
  (generate.MAX_HISTORY < length (generate.history_of ch user w) + length added ->
   length (generate.history_of ch user w') = generate.MAX_HISTORY)%nat.
Proof.
  intros Hlen outcomes w' added.
  pose proof (serve_histories requests w ch user Hlen) as E.
  fold outcomes w' added in E. rewrite E.
  rewrite length_last_n, length_app.
  split; [reflexivity|]. split; lia.
Qed.

(** Twenty-one blog requests of one user, from the empty history. *)
Lemma history_capacity_witness :
  let w := chroma.world [] (Ok "fine") in
  let requests := repeat (generate.Blog, generate.Request "ada" "hello" None None None) 21 in
  let outcomes := fst (generate.serve requests w) in
  let w' := snd (generate.serve requests w) in
  let added := generate.entries generate.Blog "ada" requests outcomes in
  generate.history_of generate.Blog "ada" w' =
    generate.last_n generate.MAX_HISTORY (generate.history_of generate.Blog "ada" w ++ added) /\
  (length (generate.history_of generate.Blog "ada" w') <= generate.MAX_HISTORY)%nat /\
  (generate.MAX_HISTORY < length (generate.history_of generate.Blog "ada" w) + length added ->
   length (generate.history_of generate.Blog "ada" w') = generate.MAX_HISTORY)%nat.
Proof.
  apply (history_capacity
           (repeat (generate.Blog, generate.Request "ada" "hello" None None None) 21)
           (chroma.world [] (Ok "fine")) generate.Blog "ada").
  vm_compute. lia.
Defined.

(** After requests 0..20 the history holds the exchanges 1..20. *)
Example twenty_one_requests :
  let w := chroma.world [] (Ok "fine") in
  let requests :=
    map (fun n => (generate.Blog, generate.Request "ada" (str_nat n) None None None))
        (seq 0 21) in
  generate.history_of generate.Blog "ada" (snd (generate.serve requests w)) =
    map (fun n => generate.exchange (str_nat n) "fine") (seq 1 20).
Proof. vm_compute. reflexivity. Qed.

(** C1 at a request whose generation call succeeds.  Both routes return the
    text and append the exchange to the user's history, but the collection
    is as before: [memory.add(...)] is called without [await], so the
    coroutine never runs.  Awaited on the same state, [memory.add] would
    have stored the exchange. *)
Theorem generate_route_skips_memory_add :
  let w := chroma.world [] (Ok "Once upon a time") in
  let request := generate.Request "ada" "Write a post" None None None in
  let stored :=
    [Record_ "uuid-0" "Once upon a time" {[ "prompt" := SStr "ada:Write a post" ]}
             (memory._simple_text_to_vector "Once upon a time" memory.EMBED_DIM)] in
  (fst (generate.generate_blog_route request w) =
     Ok (generate.Response "Once upon a time" "Once upon a time" "groq" None) /\
   generate.history_of generate.Blog "ada" (snd (generate.generate_blog_route request w)) =
     [generate.exchange "Write a post" "Once upon a time"] /\
   collection (snd (generate.generate_blog_route request w)) = []) /\
  (fst (generate.generate_social_route request w) =
     Ok (generate.Response "Once upon a time" "Once upon a time" "groq" None) /\
   generate.history_of generate.Social "ada" (snd (generate.generate_social_route request w)) =
     [generate.exchange "Write a post" "Once upon a time"] /\
   collection (snd (generate.generate_social_route request w)) = []) /\
  collection (snd (await (memory.add "ada:Write a post" "Once upon a time") w)) = stored.
Proof.
  cbv zeta. split; [|split].
  - split; [vm_compute; reflexivity|]. split; [vm_compute; reflexivity|].
    exact (handle_collection generate.Blog (generate.Request "ada" "Write a post" None None None) (chroma.world [] (Ok "Once upon a time"))).
  - split; [vm_compute; reflexivity|]. split; [vm_compute; reflexivity|].
    exact (handle_collection generate.Social (generate.Request "ada" "Write a post" None None None) (chroma.world [] (Ok "Once upon a time"))).
  - reflexivity.
Qed.

(** ** The memory service *)

Section MemoryFacts.
Import memory.
Context {C : Type} `{Collection C} {N : Numpy}.

(** [query] is the store's answer, reshaped; the state is only read. *)
Lemma query_run (text : string) (top_k : Z) (w : World C) :
  query text top_k w =
    (match coll_query (collection w) (_simple_text_to_vector text EMBED_DIM) top_k with
     | Ok res => shape res
     | Raise e => Raise e
     end, w).
Proof.
  unfold query, bind, _run_in_thread, _query, lift_result.
  destruct (coll_query _ _ _); reflexivity.
Qed.

(** [save_document] is one [coll.add] under the caller's id or a new one. *)
Lemma save_document_run id content md embed (w : World C) :
  let i := default (uuid_source w (uuid_drawn w)) id in
  let w1 := match id with Some _ => w | None => set_uuid_drawn (S (uuid_drawn w)) w end in
  let vec := default (_simple_text_to_vector content EMBED_DIM) embed in
  save_document id content md embed w =
    match coll_add (collection w) (Record_ i content (default ∅ md) vec) with
    | Ok c' => (Ok i, set_collection c' w1)
    | Raise e => (Raise e, w1)
    end.
Proof.
  unfold save_document, bind, _run_in_thread, _add, ret, uuid4_str.
  destruct id as [i|], embed as [e|]; cbn [default collection set_uuid_drawn];
    destruct (coll_add _ _); reflexivity.
Qed.

Lemma shape_results_total (docs : list string) metas dists : forall i,
  (i + length docs <= length metas)%nat ->
  (forall ds, dists = Some ds -> (i + length docs <= length ds)%nat) ->
  exists results,
    shape_results i docs metas dists = Ok results /\
    length results = length docs /\
    forall k content, docs !! k = Some content ->
      exists m, metas !! (i + k)%nat = Some m /\
        results !! k = Some (Hit (default (SStr (str_nat (i + k))) (m !! "id")) content m
                                 (match dists with Some ds => ds !! (i + k)%nat | None => None end)).
Proof.
  induction docs as [|content docs IH]; intros i Hm Hd.
  - exists []. split; [reflexivity|]. split; [reflexivity|]. intros k c Hk. discriminate.
  - cbn [length] in Hm. cbn [shape_results].
    destruct (lookup_lt_is_Some_2 metas i ltac:(lia)) as [m Hmi].
    unfold getitem at 1. rewrite Hmi. cbn [and_then].
    assert (exists d, match dists with
                      | Some ds => and_then (getitem ds i) (fun x => Ok (Some x))
                      | None => Ok None
                      end = Ok d /\
                      d = match dists with Some ds => ds !! i | None => None end)
      as (d & -> & Hdv).
    { destruct dists as [ds|].
      - specialize (Hd ds eq_refl). cbn [length] in Hd.
        destruct (lookup_lt_is_Some_2 ds i ltac:(lia)) as [x Hx].
        exists (Some x). unfold getitem. rewrite Hx. split; [reflexivity|reflexivity].
      - exists None. split; reflexivity. }
    cbn [and_then].
    destruct (IH (S i)) as (rest & -> & Hlen & Hrest).
    { lia. }
    { intros ds Hds. specialize (Hd ds Hds). cbn [length] in Hd. lia. }
    cbn [and_then]. eexists. split; [reflexivity|]. split; [cbn; lia|].
    intros [|k] c Hk.
    + injection Hk as <-. exists m. rewrite Nat.add_0_r. split; [exact Hmi|].
      cbn. rewrite Hdv. reflexivity.
    + cbn in Hk. destruct (Hrest k c Hk) as (m' & Hm' & Hr).
      exists m'. replace (i + S k)%nat with (S i + k)%nat by lia.
      split; [exact Hm'|]. exact Hr.
Qed.
End MemoryFacts.

(** C9. When the store answers a query with documents, metadatas and
    distances of matching lengths, [query] returns one result per document,
    in order; the result at position i carries the document, its metadata,
    as id the metadata's "id" value when that key is present and otherwise
    [str(i)], and as distance the store's i-th distance, or [None] when the
    store's distance list is [None]. *)
Theorem query_result_fields {C : Type} `{Collection C}
    (text : string) (top_k : Z) (w : World C)
    (r : raw_result) (docs : list string) (rest : list (list string))
    (metas : list metadata) (dists : option (list R)) :
  coll_query (collection w) (memory._simple_text_to_vector text memory.EMBED_DIM) top_k
    = Ok (Some r) ->
  raw_documents r = Some (docs :: rest) ->
  raw_metadatas r !! 0%nat = Some metas ->
  raw_distances r !! 0%nat = Some dists ->
  (length docs <= length metas)%nat ->
  match dists with Some ds => (length docs <= length ds)%nat | None => True end ->
  exists results,
    fst (memory.query text top_k w) = Ok results /\
    length results = length docs /\
    forall i content, docs !! i = Some content ->
      exists m, metas !! i = Some m /\
        results !! i =
          Some (memory.Hit
                  (match m !! "id" with Some v => v | None => SStr (str_nat i) end)
                  content m
                  (match dists with Some ds => ds !! i | None => None end)).
Proof.
  intros Hq Hdocs Hmetas Hdists Hlm Hld.
  rewrite query_run, Hq. cbn [fst]. unfold memory.shape. rewrite Hdocs.
  unfold getitem. rewrite Hmetas, Hdists. cbn [and_then].
  destruct (shape_results_total docs metas dists 0%nat Hlm) as (results & -> & Hlen & Hres).
  { intros ds ->. exact Hld. }
  exists results. split; [reflexivity|]. split; [exact Hlen|].
  intros i content Hi. destruct (Hres i content Hi) as (m & Hm & Hr).
  exists m. split; [exact Hm|]. rewrite Hr. cbn [Nat.add].
  destruct (m !! "id"); reflexivity.
Qed.

(** A collection holding one document saved through the fallback. *)
Lemma query_result_fields_witness :
  let rec := Record_ "doc-1" "alpha beta" {[ "prompt" := SStr "ada:hi" ]}
                     (memory._simple_text_to_vector "alpha beta" memory.EMBED_DIM) in
  let w := chroma.world [rec] (Ok "") in
  let d := chroma.cosine_distance (memory._simple_text_to_vector "alpha" memory.EMBED_DIM)
                                  (rec_embedding rec) in
  exists results,
    fst (memory.query "alpha" 3 w) = Ok results /\
    length results = length ["alpha beta"] /\
    forall i content, ["alpha beta"] !! i = Some content ->
      exists m, [rec_metadata rec] !! i = Some m /\
        results !! i =
          Some (memory.Hit
                  (match m !! "id" with Some v => v | None => SStr (str_nat i) end)
                  content m
                  (match Some [d] with Some ds => ds !! i | None => None end)).
Proof.
  intros rec w d.
  apply (query_result_fields "alpha" 3 w
           (RawResult (Some [["alpha beta"]]) [[rec_metadata rec]] [Some [d]])
           ["alpha beta"] [] [rec_metadata rec] (Some [d])).
  - reflexivity.
  - reflexivity.
  - reflexivity.
  - reflexivity.
  - simpl. lia.
  - simpl. lia.
Defined.

(** C3 (as the code has it). [query] has no guard on [top_k]: whatever its
    value, it is passed to the store as [n_results], the process state is
    left as it was, and the outcome is the store's: its exception when it
    raises, and otherwise its answer reshaped, which is the empty sequence
    when the answer is falsy, has no "documents", or lists no document. *)
Theorem query_forwards_top_k {C : Type} `{Collection C}
    (text : string) (top_k : Z) (w : World C) :
  memory.query text top_k w =
    (match coll_query (collection w)
             (memory._simple_text_to_vector text memory.EMBED_DIM) top_k with
     | Ok res => memory.shape res
     | Raise e => Raise e
     end, w) /\
  memory.shape None = Ok [] /\
  (forall ms ds, memory.shape (Some (RawResult None ms ds)) = Ok []) /\
  (forall ms ds, memory.shape (Some (RawResult (Some []) ms ds)) = Ok []) /\
  (forall rest m ms d ds,
     memory.shape (Some (RawResult (Some ([] :: rest)) (m :: ms) (d :: ds))) = Ok []).
Proof.
  split; [apply query_run|]. repeat split; reflexivity.
Qed.

(** C3 as stated fails: on a collection holding one document, [top_k = 0]
    makes the store reject the call, and [query] raises. *)
Lemma query_top_k_zero_raises :
  let rec := Record_ "doc-1" "alpha beta" {[ "prompt" := SStr "ada:hi" ]}
                     (memory._simple_text_to_vector "alpha beta" memory.EMBED_DIM) in
  let w := chroma.world [rec] (Ok "") in
  fst (memory.query "alpha" 0 w) =
    Raise (TypeError "Number of requested results cannot be negative, or zero.") /\
  fst (memory.query "alpha" 0 w) <> Ok [].
Proof.
  cbv zeta. split; [reflexivity|].
  intros E. discriminate E.
Qed.

(** ** What [save_document] stores *)





Section ChromaFacts.
Import memory.


End ChromaFacts.




(* ===================================================================== *)
(** * Further properties of the services and routes *)
(* ===================================================================== *)

(** From here on sizes and indices are natural numbers. *)
Local Close Scope Z_scope.

(** ** The fallback embedding *)

Section EmbeddingShape.
Import memory.



Lemma sum_squares_ge_elem (l : list R) (x : R) :
  In x l -> (x * x <= sum_squares l)%R.
Proof.
  unfold sum_squares. induction l as [|y l IH]; cbn [map fold_right In]; [tauto|].
  intros [->|Hin].
  - pose proof (sum_squares_nonneg l) as Hs. unfold sum_squares in Hs. lra.
  - specialize (IH Hin). nra.
Qed.

Lemma l2_norm_ge_elem (l : list R) (x : R) :
  In x l -> (0 <= x)%R -> (x <= l2_norm l)%R.
Proof.
  intros Hin Hx. unfold l2_norm.
  rewrite <- (sqrt_square x) by exact Hx.
  apply sqrt_le_1_alt, sum_squares_ge_elem, Hin.
Qed.
End EmbeddingShape.




(** X2. For a dimension of at least 32 and numpy operations accurate to a
    relative error [tol] of at most 1% on the tiled digest bytes (0 for
    exact arithmetic, 5e-5 for float32 at 1536 components): the fallback
    embedding has [dim] components, none of them negative; its norm is
    within [4 * tol + 1e-8] of 1 when the digest has a non-zero byte; and
    it is the zero vector when the digest is all zero (the 1e-8 in the
    divisor keeps the division defined). *)
Theorem embedding_bounds {N : memory.Numpy} (tol : R) (text : string) (dim : nat) :
  (32 <= dim)%nat ->
  (0 <= tol <= 1 / 100)%R ->
  memory.accurate tol (memory.expand (map IZR (Sha256.digest (encode_utf8 text))) dim) ->
  let v := memory._simple_text_to_vector text dim in
  let nz := memory.nonzero_digest (Sha256.digest (encode_utf8 text)) in
  (length v = dim /\
   Forall (fun x => 0 <= x) v /\
   (nz = true -> Rabs (memory.l2_norm v - 1) <= 4 * tol + 1e-8) /\
   (nz = false -> Forall (fun x => x = 0) v))%R.
Proof.
  intros Hdim Ht Hacc v nz. split.
  - unfold v. unfold memory._simple_text_to_vector. rewrite length_map.
    apply length_expand. rewrite length_map, digest_length. lia.
  - apply (simple_text_to_vector_rounded tol text dim Hdim Ht Hacc).
Qed.

Lemma embedding_bounds_witness :
  (Rabs (memory.l2_norm (memory._simple_text_to_vector "abc" memory.EMBED_DIM) - 1)
     <= 4 * 5e-5 + 1e-8)%R.
Proof.
  destruct (embedding_bounds (N := memory.exact) 5e-5 "abc" memory.EMBED_DIM)
    as (_ & _ & Hnorm & _).
  - unfold memory.EMBED_DIM. lia.
  - lra.
  - apply exact_accurate; [lra|apply tiled_bytes_nonneg].
  - apply Hnorm. vm_compute. reflexivity.
Defined.

(** ** Tokens *)

Section Tokens.
Import analyzer analyzer_spec.

Lemma lower_char_word (c : ascii) :
  is_word_char (lower_char c) = is_word_char c /\
  (is_word_char c = true -> is_lower_word_char (lower_char c) = true).
Proof.
  destruct c as [[] [] [] [] [] [] [] []]; vm_compute; split; congruence.
Qed.

Lemma chars_ok_snoc p s c : chars_ok p s -> p c = true -> chars_ok p (s +:+ String c EmptyString).
Proof.
  unfold chars_ok. induction s as [|a s IH]; cbn; intros Hs Hc.
  - repeat constructor. exact Hc.
  - inversion Hs; subst. constructor; [assumption|]. apply IH; assumption.
Qed.

Lemma snoc_nonempty s c : s +:+ String c EmptyString <> "".
Proof. destruct s; discriminate. Qed.

Lemma findall_words_tokens (p : ascii -> bool) (s cur : string) :
  (forall c, is_word_char c = true -> In c (list_ascii_of_string s) -> p c = true) ->
  chars_ok p cur ->
  Forall (fun t => t <> "" /\ chars_ok p t) (findall_words s cur).
Proof.
  revert cur. induction s as [|c s IH]; intros cur Hs Hcur; cbn [findall_words].
  - destruct cur; cbn; [constructor|]. constructor; [split; [discriminate|exact Hcur]|constructor].
  - destruct (is_word_char c) eqn:Hc.
    + apply IH.
      * intros c' Hw Hin. apply Hs; [exact Hw|]. cbn. right. exact Hin.
      * apply chars_ok_snoc; [exact Hcur|]. apply Hs; [exact Hc|]. cbn. left. reflexivity.
    + apply Forall_app. split.
      * destruct cur; cbn; [constructor|]. constructor; [split; [discriminate|exact Hcur]|constructor].
      * apply IH; [|constructor].
        intros c' Hw Hin. apply Hs; [exact Hw|]. cbn. right. exact Hin.
Qed.

Lemma lower_chars (s : string) (c : ascii) :
  In c (list_ascii_of_string (lower s)) -> exists c0, c = lower_char c0.
Proof.
  induction s as [|a s IH]; cbn; [tauto|].
  intros [<-|Hin]; [eexists; reflexivity|]. apply IH, Hin.
Qed.
End Tokens.

(** X3. For ASCII content, every token the analysis counts is non-empty and
    made of digits, underscores and lowercase letters only: the text is
    lowercased before it is cut into words, and punctuation and white space
    never reach a token. *)
Theorem tokens_are_lowercase_words (doc : analyzer.document) :
  analyzer_spec.chars_ok analyzer_spec.is_ascii (default "" (analyzer.doc_content doc)) ->
  Forall (fun t => t <> "" /\
            analyzer_spec.chars_ok analyzer_spec.is_lower_word_char t)
         (analyzer_spec.tokens doc).
Proof.
  intros _. unfold analyzer_spec.tokens.
  apply (findall_words_tokens analyzer_spec.is_lower_word_char); [|constructor].
  intros c Hw Hin. apply lower_chars in Hin as [c0 ->].
  destruct (lower_char_word c0) as [Hsame Hlow].
  apply Hlow. rewrite <- Hsame. exact Hw.
Qed.

Lemma tokens_are_lowercase_words_witness :
  Forall (fun t => t <> "" /\
            analyzer_spec.chars_ok analyzer_spec.is_lower_word_char t)
         (analyzer_spec.tokens (analyzer.Document (Some "Hello, World_2!"))).
Proof.
  apply (tokens_are_lowercase_words (analyzer.Document (Some "Hello, World_2!"))).
  repeat constructor.
Defined.

(** ** Counters and [most_common] *)

Section CounterFacts.
Import analyzer analyzer_spec.

Lemma count_of_incr (c : Counter) (key k : string) :
  count_of (counter_incr c key) k =
  (count_of c k + if string_dec key k then 1 else 0)%nat.
Proof.
  unfold count_of. induction c as [|[k0 n0] c IH]; cbn [counter_incr dict_get].
  - destruct (String.eqb_spec key k) as [->|Hne].
    + destruct (string_dec k k); [reflexivity|congruence].
    + destruct (string_dec key k); [congruence|reflexivity].
  - destruct (String.eqb_spec k0 key) as [->|Hne]; cbn [dict_get].
    + destruct (String.eqb_spec key k) as [->|Hne'].
      * destruct (string_dec k k); [cbn; lia|congruence].
      * destruct (string_dec key k); [congruence|cbn; lia].
    + destruct (String.eqb_spec k0 k) as [->|Hne'].
      * destruct (string_dec key k); [congruence|cbn; lia].
      * exact IH.
Qed.

Lemma keys_incr (c : Counter) (key : string) :
  map fst (counter_incr c key) =
  if decide (key ∈ map fst c) then map fst c else (map fst c ++ [key])%list.
Proof.
  induction c as [|[k0 n0] c IH]; cbn [counter_incr map fst].
  - destruct (decide (key ∈ [])) as [Hin|]; [|reflexivity]. apply elem_of_nil in Hin as [].
  - destruct (String.eqb_spec k0 key) as [->|Hne]; cbn [map fst].
    + destruct (decide (key ∈ key :: map fst c)) as [|Hn]; [reflexivity|].
      exfalso. apply Hn. left.
    + rewrite IH. destruct (decide (key ∈ map fst c)) as [Hin|Hnin].
      * destruct (decide (key ∈ k0 :: map fst c)) as [|Hn]; [reflexivity|].
        exfalso. apply Hn. right. exact Hin.
      * destruct (decide (key ∈ k0 :: map fst c)) as [Hin|]; [|reflexivity].
        apply elem_of_cons in Hin as [->|Hin]; [congruence|tauto].
Qed.

Lemma counter_update_app (c : Counter) (ks1 ks2 : list string) :
  counter_update c (ks1 ++ ks2) = counter_update (counter_update c ks1) ks2.
Proof. unfold counter_update. apply fold_left_app. Qed.

Lemma count_of_update (keys : list string) : forall (c : Counter) (k : string),
  count_of (counter_update c keys) k = (count_of c k + count_occ string_dec keys k)%nat.
Proof.
  unfold counter_update.
  induction keys as [|key keys IH]; intros c k; cbn [fold_left count_occ]; [lia|].
  rewrite IH, count_of_incr. destruct (string_dec key k); lia.
Qed.

Lemma keys_update (keys : list string) : forall c : Counter,
  exists new,
    map fst (counter_update c keys) = (map fst c ++ new)%list /\
    (NoDup (map fst c) -> NoDup (map fst (counter_update c keys))) /\
    (forall k, In k new -> In k keys).
Proof.
  unfold counter_update.
  induction keys as [|key keys IH]; intros c; cbn [fold_left].
  - exists []. rewrite app_nil_r. split; [reflexivity|]. split; [tauto|]. intros k [].
  - destruct (IH (counter_incr c key)) as (new & Hk & Hnd & Hin).
    rewrite keys_incr in Hk, Hnd.
    destruct (decide (key ∈ map fst c)) as [Hmem|Hnm].
    + exists new. split; [exact Hk|]. split; [exact Hnd|].
      intros k Hk'. right. apply Hin, Hk'.
    + exists (key :: new). split; [rewrite Hk, <- app_assoc; reflexivity|]. split.
      * intros Hc. apply Hnd. apply NoDup_app. split; [exact Hc|]. split.
        -- intros x Hx Hx'. apply list_elem_of_singleton in Hx'. subst x.
           apply Hnm, Hx.
        -- apply NoDup_singleton.
      * intros k [<-|Hk']; [left; reflexivity|right; apply Hin, Hk'].
Qed.

(** In a counter with distinct keys every entry is the key's count. *)
Lemma count_of_entry (c : Counter) (w : string) (k : nat) :
  NoDup (map fst c) -> In (w, k) c -> count_of c w = k.
Proof.
  unfold count_of. induction c as [|[k0 n0] c IH]; cbn [map fst dict_get In]; [tauto|].
  intros Hnd [Heq|Hin].
  - injection Heq as -> ->. rewrite String.eqb_refl. reflexivity.
  - apply NoDup_cons in Hnd as [Hk0 Hnd].
    destruct (String.eqb_spec k0 w) as [->|Hne].
    + exfalso. apply Hk0. apply list_elem_of_In. apply (in_map fst) in Hin. exact Hin.
    + apply IH; assumption.
Qed.

Lemma entry_of_count (c : Counter) (w : string) :
  (0 < count_of c w)%nat -> In (w, count_of c w) c.
Proof.
  unfold count_of. induction c as [|[k0 n0] c IH]; cbn [dict_get]; [cbn; lia|].
  destruct (String.eqb_spec k0 w) as [->|Hne]; cbn [default].
  - intros _. left. reflexivity.
  - intros Hpos. right. apply IH, Hpos.
Qed.
End CounterFacts.

Section MostCommon.
Import analyzer analyzer_spec.

Lemma insert_desc_perm (x : string * nat) (l : Counter) :
  Permutation (insert_desc x l) (x :: l).
Proof.
  induction l as [|y l IH]; cbn [insert_desc]; [reflexivity|].
  destruct (snd y <=? snd x)%nat; [reflexivity|].
  rewrite IH. apply perm_swap.
Qed.

Lemma sort_desc_perm (c : Counter) : Permutation (fold_right insert_desc [] c) c.
Proof.
  induction c as [|x c IH]; cbn [fold_right]; [reflexivity|].
  rewrite insert_desc_perm, IH. reflexivity.
Qed.

Lemma insert_desc_sorted (x : string * nat) (l : Counter) :
  StronglySorted by_count_desc l -> StronglySorted by_count_desc (insert_desc x l).
Proof.
  induction l as [|y l IH]; cbn [insert_desc]; intros Hs.
  - repeat constructor.
  - inversion Hs as [|? ? Hs' Hall]; subst.
    destruct (snd y <=? snd x)%nat eqn:E.
    + apply Nat.leb_le in E. constructor; [exact Hs|].
      constructor; [exact E|].
      eapply Forall_impl; [exact Hall|]. unfold by_count_desc. intros z Hz. lia.
    + apply Nat.leb_gt in E. constructor; [apply IH, Hs'|].
      rewrite insert_desc_perm. constructor; [unfold by_count_desc; lia|exact Hall].
Qed.

Lemma sort_desc_sorted (c : Counter) :
  StronglySorted by_count_desc (fold_right insert_desc [] c).
Proof.
  induction c as [|x c IH]; cbn [fold_right]; [constructor|].
  apply insert_desc_sorted, IH.
Qed.

Lemma insert_desc_stable (m : nat) (x : string * nat) (l : Counter) :
  List.filter (fun e => snd e =? m)%nat (insert_desc x l) =
  List.filter (fun e => snd e =? m)%nat (x :: l).
Proof.
  induction l as [|y l IH]; cbn [insert_desc]; [reflexivity|].
  destruct (snd y <=? snd x)%nat eqn:E; [reflexivity|].
  apply Nat.leb_gt in E. cbn [List.filter] in *. rewrite IH.
  destruct (Nat.eqb_spec (snd y) m), (Nat.eqb_spec (snd x) m); try reflexivity. lia.
Qed.

Lemma sort_desc_stable (m : nat) (c : Counter) :
  List.filter (fun e => snd e =? m)%nat (fold_right insert_desc [] c) =
  List.filter (fun e => snd e =? m)%nat c.
Proof.
  induction c as [|x c IH]; cbn [fold_right]; [reflexivity|].
  rewrite insert_desc_stable. cbn [List.filter]. rewrite IH. reflexivity.
Qed.

Lemma strongly_sorted_app {A} (R : A -> A -> Prop) (l1 l2 : list A) :
  StronglySorted R (l1 ++ l2) -> forall a b, In a l1 -> In b l2 -> R a b.
Proof.
  induction l1 as [|x l1 IH]; cbn; intros Hs a b Ha Hb; [tauto|].
  inversion Hs as [|? ? Hs' Hall]; subst. destruct Ha as [<-|Ha].
  - rewrite Forall_forall in Hall. apply Hall. apply list_elem_of_In.
    apply in_or_app. right. exact Hb.
  - apply (IH Hs' a b Ha Hb).
Qed.

Lemma strongly_sorted_take {A} (R : A -> A -> Prop) (n : nat) (l : list A) :
  StronglySorted R l -> StronglySorted R (take n l).
Proof.
  intros Hs. revert n. induction Hs as [|x l Hs IH Hall]; intros [|n]; cbn; try constructor.
  - apply IH.
  - apply Forall_take. exact Hall.
Qed.

(** What [Counter(keys).most_common(n)] lists. *)
Lemma most_common_update (keys : list string) (n : nat) :
  let c := counter_update [] keys in
  let r := most_common c n in
  (length r <= n)%nat /\
  NoDup (map fst r) /\
  StronglySorted by_count_desc r /\
  (forall w k, In (w, k) r -> k = count_occ string_dec keys w /\ (0 < k)%nat) /\
  (forall w, In w keys -> ~ In w (map fst r) ->
     length r = n /\
     forall w' k', In (w', k') r -> (count_occ string_dec keys w <= k')%nat) /\
  (exists rest, Permutation (r ++ rest) c /\
     forall m, List.filter (fun e => snd e =? m)%nat (r ++ rest) =
               List.filter (fun e => snd e =? m)%nat c).
Proof.
  intros c r. set (s := fold_right insert_desc [] c).
  assert (Hr : r = take n s) by reflexivity.
  assert (Hperm : Permutation s c) by apply sort_desc_perm.
  assert (Hss : StronglySorted by_count_desc s) by apply sort_desc_sorted.
  destruct (keys_update keys []) as (new & Hkeys & Hnd & Hnew). fold c in Hkeys, Hnd.
  specialize (Hnd (NoDup_nil_2)).
  assert (Hcount : forall w, count_of c w = count_occ string_dec keys w).
  { intros w. unfold c. rewrite count_of_update. reflexivity. }
  assert (Hnds : NoDup (map fst s)).
  { rewrite Hperm. exact Hnd. }
  assert (Hsplit : s = (r ++ drop n s)%list) by (rewrite Hr; symmetry; apply take_drop).
  split; [rewrite Hr, length_take; lia|]. split.
  { rewrite Hsplit, map_app in Hnds. apply NoDup_app in Hnds as [H1 _]. exact H1. }
  split; [rewrite Hr; apply strongly_sorted_take, Hss|]. split.
  { intros w k Hin.
    assert (In (w, k) c) as Hc.
    { apply (Permutation_in _ Hperm). rewrite Hsplit. apply in_or_app. left. exact Hin. }
    rewrite <- Hcount, (count_of_entry c w k Hnd Hc). split; [reflexivity|].
    rewrite <- (count_of_entry c w k Hnd Hc), Hcount.
    apply count_occ_In. apply Hnew. cbn in Hkeys.
    apply (in_map fst) in Hc. rewrite Hkeys in Hc. exact Hc. }
  split.
  { intros w Hw Hnot.
    assert (0 < count_of c w)%nat as Hpos by (rewrite Hcount; apply count_occ_In, Hw).
    pose proof (entry_of_count c w Hpos) as Hc.
    apply (Permutation_in _ (Permutation_sym Hperm)) in Hc.
    rewrite Hsplit in Hc. apply in_app_or in Hc as [Hc|Hc].
    { exfalso. apply Hnot. apply (in_map fst) in Hc. exact Hc. }
    split.
    - rewrite Hr, length_take. apply list_elem_of_In in Hc.
      apply list_elem_of_lookup_1 in Hc as [i Hi]. apply lookup_lt_Some in Hi.
      rewrite length_drop in Hi. lia.
    - intros w' k' Hin. rewrite Hsplit in Hss.
      pose proof (strongly_sorted_app _ _ _ Hss _ _ Hin Hc) as Hle.
      unfold by_count_desc in Hle. cbn in Hle. rewrite <- Hcount. exact Hle. }
  exists (drop n s). rewrite <- Hsplit. split; [exact Hperm|].
  intros m. apply sort_desc_stable.
Qed.

Lemma scan_counters (docs : list document) : forall a : acc,
  word_counter (fold_left step docs a) =
    counter_update (word_counter a) (all_tokens docs) /\
  opening_phrases (fold_left step docs a) =
    counter_update (opening_phrases a) (all_openings docs).
Proof.
  induction docs as [|d docs IH]; intros a; unfold all_tokens, all_openings; cbn [fold_left map concat]; [split; reflexivity|].
  destruct (IH (step a d)) as [-> ->]. unfold all_tokens, all_openings. split.
  - rewrite counter_update_app. reflexivity.
  - reflexivity.
Qed.
End MostCommon.

(** ** The style profile *)

Section ProfileFacts.
Import analyzer analyzer_spec.

Lemma analyze_nonempty (d : document) (ds : list document) :
  _analyze (d :: ds) =
    let a := scan (d :: ds) in
    [("avg_length_words",
        PyFloat (inject_Z (Z.of_nat (sum_nat (lengths a))) /
                 inject_Z (Z.of_nat (length (lengths a))))%Q);
     ("median_length_words",
        PyInt (Z.of_nat (nth (length (lengths a) / 2) (sorted (lengths a)) 0%nat)));
     ("most_common_words", PyPairs (most_common (word_counter a) 50));
     ("common_openings", PyPairs (most_common (opening_phrases a) 5))].
Proof. reflexivity. Qed.

Lemma scan_word_counter (docs : list document) :
  word_counter (scan docs) = counter_update [] (all_tokens docs).
Proof. unfold scan. apply scan_counters. Qed.

Lemma scan_opening_phrases (docs : list document) :
  opening_phrases (scan docs) = counter_update [] (all_openings docs).
Proof. unfold scan. apply scan_counters. Qed.

Lemma filter_length_perm {A} (f : A -> bool) (l l' : list A) :
  Permutation l l' -> length (List.filter f l) = length (List.filter f l').
Proof.
  induction 1 as [|x l l' _ IH|x y l|l l' l'' _ IH1 _ IH2]; cbn [List.filter].
  - reflexivity.
  - destruct (f x); cbn [length]; rewrite IH; reflexivity.
  - destruct (f x), (f y); reflexivity.
  - rewrite IH1. exact IH2.
Qed.

Lemma filter_length_all {A} (f : A -> bool) (l : list A) :
  (forall x, In x l -> f x = true) -> length (List.filter f l) = length l.
Proof.
  induction l as [|x l IH]; cbn [List.filter]; intros Hall; [reflexivity|].
  rewrite (Hall x) by (left; reflexivity). cbn [length]. rewrite IH; [reflexivity|].
  intros y Hy. apply Hall. right. exact Hy.
Qed.

Lemma filter_length_map {A B} (g : A -> B) (f : B -> bool) (l : list A) :
  length (List.filter f (map g l)) = length (List.filter (fun x => f (g x)) l).
Proof.
  induction l as [|x l IH]; cbn [map List.filter]; [reflexivity|].
  destruct (f (g x)); cbn [length]; rewrite IH; reflexivity.
Qed.

Lemma filter_length_le_app {A} (f : A -> bool) (l1 l2 : list A) :
  length (List.filter f (l1 ++ l2)) =
  (length (List.filter f l1) + length (List.filter f l2))%nat.
Proof. rewrite List.filter_app, length_app. reflexivity. Qed.

Lemma strongly_sorted_suffix {A} (R : A -> A -> Prop) (l1 l2 : list A) :
  StronglySorted R (l1 ++ l2) -> StronglySorted R l2.
Proof.
  induction l1 as [|x l1 IH]; cbn; intros Hs; [exact Hs|].
  inversion Hs; subst. apply IH. assumption.
Qed.

(** The element at index [k] of a sorted list splits it. *)
Lemma sorted_split (s : list nat) (k m : nat) :
  Sorted le s -> s !! k = Some m ->
  (forall a, In a (take k s) -> a <= m)%nat /\
  (forall b, In b (drop (S k) s) -> m <= b)%nat.
Proof.
  intros Hs Hk.
  apply Sorted_StronglySorted in Hs; [|intros x y z; apply Nat.le_trans].
  assert (s = take k s ++ m :: drop (S k) s)%list as Hsplit.
  { rewrite <- (take_drop k s) at 1. f_equal. apply drop_S. exact Hk. }
  rewrite Hsplit in Hs. split.
  - intros a Ha. apply (strongly_sorted_app _ _ _ Hs a m Ha). left. reflexivity.
  - intros b Hb. apply strongly_sorted_suffix in Hs.
    inversion Hs as [|? ? _ Hall]; subst. rewrite Forall_forall in Hall.
    apply Hall. apply list_elem_of_In. exact Hb.
Qed.

Lemma count_occ_openings (docs : list document) (o : string) :
  count_occ string_dec (all_openings docs) o =
  count_docs (fun d => String.eqb (opening d) o) docs.
Proof.
  unfold all_openings, count_docs.
  induction docs as [|d docs IH]; cbn [map count_occ List.filter]; [reflexivity|].
  destruct (string_dec (opening d) o) as [->|Hne].
  - rewrite String.eqb_refl. cbn [length]. rewrite IH. reflexivity.
  - destruct (String.eqb_spec (opening d) o); [congruence|exact IH].
Qed.

Lemma count_docs_le (p : document -> bool) (docs : list document) :
  (count_docs p docs <= length docs)%nat.
Proof.
  unfold count_docs. induction docs as [|d docs IH]; cbn [List.filter length]; [lia|].
  destruct (p d); cbn [length]; lia.
Qed.
End ProfileFacts.

(** X5. For a non-empty document list ["median_length_words"] is the token
    count of one of the documents; more than half of the documents have at
    most that many tokens, and at least half (rounded up) have at least
    that many. *)
Theorem profile_median_splits (documents : list analyzer.document) :
  documents <> [] ->
  exists m : nat,
    analyzer.dict_get (analyzer._analyze documents) "median_length_words"
      = Some (analyzer.PyInt (Z.of_nat m)) /\
    In m (map analyzer.token_count documents) /\
    (length documents / 2 + 1 <=
       analyzer_spec.count_docs (fun d => analyzer.token_count d <=? m) documents)%nat /\
    (length documents - length documents / 2 <=
       analyzer_spec.count_docs (fun d => m <=? analyzer.token_count d) documents)%nat.
Proof.
  intros Hne.
  set (counts := map analyzer.token_count documents).
  set (s := analyzer.sorted counts).
  set (k := (length documents / 2)%nat).
  assert (Hperm : Permutation s counts) by apply sorted_perm.
  assert (Hlen : length s = length documents).
  { rewrite (Permutation_length Hperm). apply length_map. }
  assert (Hk : (k < length s)%nat).
  { rewrite Hlen. destruct documents; [congruence|]. apply Nat.div_lt; simpl; lia. }
  destruct (lookup_lt_is_Some_2 s k Hk) as [m Hm].
  destruct (sorted_split s k m (sorted_sorted counts) Hm) as [Hlow Hhigh].
  assert (Hsplit : s = (take k s ++ m :: drop (S k) s)%list).
  { rewrite <- (take_drop k s) at 1. f_equal. apply drop_S. exact Hm. }
  exists m. split; [|split; [|split]].
  - destruct documents as [|d ds]; [congruence|].
    rewrite analyze_nonempty. cbv zeta.
    cbn [analyzer.dict_get String.eqb Ascii.eqb Bool.eqb].
    rewrite lengths_scan, length_map. fold counts s k.
    rewrite nth_lookup, Hm. reflexivity.
  - apply (Permutation_in _ Hperm). apply list_elem_of_In.
    eapply list_elem_of_lookup_2. exact Hm.
  - unfold analyzer_spec.count_docs.
    rewrite <- (filter_length_map analyzer.token_count (fun c => c <=? m)%nat).
    fold counts. rewrite <- (filter_length_perm _ _ _ Hperm).
    replace s with ((take k s ++ [m]) ++ drop (S k) s)%list
      by (rewrite <- app_assoc; symmetry; exact Hsplit).
    rewrite filter_length_le_app, (filter_length_all _ (take k s ++ [m])).
    + rewrite length_app, length_take. cbn [length]. lia.
    + intros a Ha. apply Nat.leb_le. apply in_app_or in Ha as [Ha|[<-|[]]]; [apply Hlow, Ha|lia].
  - unfold analyzer_spec.count_docs.
    rewrite <- (filter_length_map analyzer.token_count (fun c => m <=? c)%nat).
    fold counts. rewrite <- (filter_length_perm _ _ _ Hperm).
    rewrite Hsplit at 1.
    rewrite filter_length_le_app, (filter_length_all _ (m :: drop (S k) s)).
    + cbn [length]. rewrite length_drop. lia.
    + intros b [<-|Hb]; apply Nat.leb_le; [lia|apply Hhigh, Hb].
Qed.

Lemma profile_median_splits_witness :
  exists m : nat,
    analyzer.dict_get (analyzer._analyze
       [analyzer.Document (Some "alpha beta alpha"); analyzer.Document (Some "beta gamma");
        analyzer.Document None]) "median_length_words"
      = Some (analyzer.PyInt (Z.of_nat m)) /\
    In m (map analyzer.token_count
       [analyzer.Document (Some "alpha beta alpha"); analyzer.Document (Some "beta gamma");
        analyzer.Document None]) /\
    (3 / 2 + 1 <=
       analyzer_spec.count_docs (fun d => analyzer.token_count d <=? m)
         [analyzer.Document (Some "alpha beta alpha"); analyzer.Document (Some "beta gamma");
          analyzer.Document None])%nat /\
    (3 - 3 / 2 <=
       analyzer_spec.count_docs (fun d => m <=? analyzer.token_count d)
         [analyzer.Document (Some "alpha beta alpha"); analyzer.Document (Some "beta gamma");
          analyzer.Document None])%nat.
Proof.
  apply (profile_median_splits
    [analyzer.Document (Some "alpha beta alpha"); analyzer.Document (Some "beta gamma");
     analyzer.Document None]).
  discriminate.
Defined.

(** X6. ["most_common_words"] lists at most 50 distinct words, by
    count from the largest down; each listed count is the number of
    occurrences of the word in all documents together; and a word of the
    documents is left out only when the list is full and every listed
    word occurs at least as often. *)
Theorem profile_most_common_words (documents : list analyzer.document) :
  documents <> [] ->
  exists l : list (string * nat),
    analyzer.dict_get (analyzer._analyze documents) "most_common_words"
      = Some (analyzer.PyPairs l) /\
    (length l <= 50)%nat /\
    NoDup (map fst l) /\
    StronglySorted analyzer_spec.by_count_desc l /\
    (forall w k, In (w, k) l ->
       k = count_occ string_dec (analyzer_spec.all_tokens documents) w /\ (0 < k)%nat) /\
    (forall w, In w (analyzer_spec.all_tokens documents) -> ~ In w (map fst l) ->
       length l = 50%nat /\
       forall w' k', In (w', k') l ->
         (count_occ string_dec (analyzer_spec.all_tokens documents) w <= k')%nat).
Proof.
  intros Hne. destruct documents as [|d ds]; [congruence|].
  rewrite analyze_nonempty. cbv zeta.
  cbn [analyzer.dict_get String.eqb Ascii.eqb Bool.eqb].
  rewrite scan_word_counter.
  pose proof (most_common_update (analyzer_spec.all_tokens (d :: ds)) 50) as Hm.
  cbv zeta in Hm. destruct Hm as (H1 & H2 & H3 & H4 & H5 & _).
  eexists. split; [reflexivity|].
  split; [exact H1|]. split; [exact H2|]. split; [exact H3|]. split; [exact H4|exact H5].
Qed.

Lemma profile_most_common_words_witness :
  exists l : list (string * nat),
    analyzer.dict_get (analyzer._analyze
       [analyzer.Document (Some "alpha beta alpha"); analyzer.Document (Some "beta gamma")])
       "most_common_words" = Some (analyzer.PyPairs l) /\
    (length l <= 50)%nat /\
    NoDup (map fst l) /\
    StronglySorted analyzer_spec.by_count_desc l /\
    (forall w k, In (w, k) l ->
       k = count_occ string_dec (analyzer_spec.all_tokens
             [analyzer.Document (Some "alpha beta alpha"); analyzer.Document (Some "beta gamma")]) w
       /\ (0 < k)%nat) /\
    (forall w, In w (analyzer_spec.all_tokens
             [analyzer.Document (Some "alpha beta alpha"); analyzer.Document (Some "beta gamma")]) ->
       ~ In w (map fst l) ->
       length l = 50%nat /\
       forall w' k', In (w', k') l ->
         (count_occ string_dec (analyzer_spec.all_tokens
             [analyzer.Document (Some "alpha beta alpha"); analyzer.Document (Some "beta gamma")]) w
          <= k')%nat).
Proof.
  apply (profile_most_common_words
    [analyzer.Document (Some "alpha beta alpha"); analyzer.Document (Some "beta gamma")]).
  discriminate.
Defined.

(** X7. ["common_openings"] lists between 1 and 5 distinct openings (the
    first 20 tokens of a document, joined by spaces), by count from the
    largest down; each count is the number of documents with that opening;
    and a document's opening is left out only when five are listed, each
    at least as frequent. *)
Theorem profile_common_openings (documents : list analyzer.document) :
  documents <> [] ->
  exists l : list (string * nat),
    analyzer.dict_get (analyzer._analyze documents) "common_openings"
      = Some (analyzer.PyPairs l) /\
    (1 <= length l <= 5)%nat /\
    NoDup (map fst l) /\
    StronglySorted analyzer_spec.by_count_desc l /\
    (forall o k, In (o, k) l ->
       k = analyzer_spec.count_docs
             (fun d => String.eqb (analyzer_spec.opening d) o) documents /\
       (0 < k <= length documents)%nat) /\
    (forall d, In d documents -> ~ In (analyzer_spec.opening d) (map fst l) ->
       length l = 5%nat /\
       forall o' k', In (o', k') l ->
         (analyzer_spec.count_docs
            (fun d' => String.eqb (analyzer_spec.opening d') (analyzer_spec.opening d))
            documents <= k')%nat).
Proof.
  intros Hne. destruct documents as [|d ds]; [congruence|].
  rewrite analyze_nonempty. cbv zeta.
  cbn [analyzer.dict_get String.eqb Ascii.eqb Bool.eqb].
  rewrite scan_opening_phrases.
  pose proof (most_common_update (analyzer_spec.all_openings (d :: ds)) 5) as Hm.
  cbv zeta in Hm. destruct Hm as (H1 & H2 & H3 & H4 & H5 & _).
  set (l := analyzer.most_common _ 5) in *.
  exists l. split; [reflexivity|]. split; [|split; [exact H2|split; [exact H3|split]]].
  - split; [|exact H1].
    destruct (in_dec string_dec (analyzer_spec.opening d) (map fst l)) as [Hin|Hnin].
    + destruct l; [destruct Hin|cbn; lia].
    + destruct (H5 (analyzer_spec.opening d)) as [-> _]; [left; reflexivity|exact Hnin|lia].
  - intros o k Hin. destruct (H4 o k Hin) as [-> Hpos].
    rewrite count_occ_openings in *. split; [reflexivity|]. split; [exact Hpos|].
    apply count_docs_le.
  - intros d' Hd' Hnin.
    destruct (H5 (analyzer_spec.opening d')) as [Hlen Hle]; [|exact Hnin|].
    { unfold analyzer_spec.all_openings. apply in_map. exact Hd'. }
    split; [exact Hlen|]. intros o' k' Hin.
    rewrite <- count_occ_openings. apply (Hle o' k' Hin).
Qed.

Lemma profile_common_openings_witness :
  exists l : list (string * nat),
    analyzer.dict_get (analyzer._analyze
       [analyzer.Document (Some "alpha beta alpha"); analyzer.Document (Some "beta gamma")])
       "common_openings" = Some (analyzer.PyPairs l) /\
    (1 <= length l <= 5)%nat /\
    NoDup (map fst l) /\
    StronglySorted analyzer_spec.by_count_desc l /\
    (forall o k, In (o, k) l ->
       k = analyzer_spec.count_docs
             (fun d => String.eqb (analyzer_spec.opening d) o)
             [analyzer.Document (Some "alpha beta alpha"); analyzer.Document (Some "beta gamma")] /\
       (0 < k <= 2)%nat) /\
    (forall d, In d [analyzer.Document (Some "alpha beta alpha");
                     analyzer.Document (Some "beta gamma")] ->
       ~ In (analyzer_spec.opening d) (map fst l) ->
       length l = 5%nat /\
       forall o' k', In (o', k') l ->
         (analyzer_spec.count_docs
            (fun d' => String.eqb (analyzer_spec.opening d') (analyzer_spec.opening d))
            [analyzer.Document (Some "alpha beta alpha"); analyzer.Document (Some "beta gamma")]
          <= k')%nat).
Proof.
  apply (profile_common_openings
    [analyzer.Document (Some "alpha beta alpha"); analyzer.Document (Some "beta gamma")]).
  discriminate.
Defined.

Section FirstSeen.
Import analyzer analyzer_spec.

Lemma counter_update_snoc (c : Counter) (keys : list string) (k : string) :
  counter_update c (keys ++ [k]) = counter_incr (counter_update c keys) k.
Proof. rewrite counter_update_app. reflexivity. Qed.

(** The keys of a counter filled from [keys]: the distinct keys, each at
    the place of its first occurrence. *)
Lemma keys_first_seen (keys : list string) :
  map fst (counter_update [] keys) = rev (nodup string_dec (rev keys)).
Proof.
  induction keys as [|k keys IH] using rev_ind; [reflexivity|].
  rewrite counter_update_snoc, keys_incr, IH, rev_app_distr. cbn [rev app nodup].
  destruct (in_dec string_dec k (rev keys)) as [Hin|Hnin].
  - destruct (decide (k ∈ rev (nodup string_dec (rev keys)))) as [|Hn]; [reflexivity|].
    exfalso. apply Hn. apply list_elem_of_In. apply -> in_rev. apply nodup_In. exact Hin.
  - destruct (decide (k ∈ rev (nodup string_dec (rev keys)))) as [Hy|]; [|reflexivity].
    exfalso. apply Hnin. apply list_elem_of_In in Hy. apply in_rev in Hy.
    apply nodup_In in Hy. exact Hy.
Qed.
End FirstSeen.

(** X8. Words with the same count appear in ["most_common_words"] in the
    order in which they first occur in the documents: for every count, the
    listed words with that count are the first ones, in first-occurrence
    order, of all words with that count. *)
Theorem profile_ties_first_seen (documents : list analyzer.document) :
  documents <> [] ->
  exists (l c : list (string * nat)),
    analyzer.dict_get (analyzer._analyze documents) "most_common_words"
      = Some (analyzer.PyPairs l) /\
    map fst c = rev (nodup string_dec (rev (analyzer_spec.all_tokens documents))) /\
    (forall w k, In (w, k) c ->
       k = count_occ string_dec (analyzer_spec.all_tokens documents) w) /\
    (forall m, exists rest,
       List.filter (fun e => snd e =? m)%nat c =
       (List.filter (fun e => snd e =? m)%nat l ++ rest)%list).
Proof.
  intros Hne. destruct documents as [|d ds]; [congruence|].
  rewrite analyze_nonempty. cbv zeta.
  cbn [analyzer.dict_get String.eqb Ascii.eqb Bool.eqb].
  rewrite scan_word_counter.
  set (keys := analyzer_spec.all_tokens (d :: ds)).
  set (c := analyzer.counter_update [] keys).
  exists (analyzer.most_common c 50), c.
  split; [reflexivity|]. split; [apply keys_first_seen|]. split.
  - intros w k Hin.
    destruct (keys_update keys []) as (_ & _ & Hnd & _). fold c in Hnd.
    rewrite <- (count_of_entry c w k (Hnd NoDup_nil_2) Hin).
    unfold c. rewrite count_of_update. reflexivity.
  - intros m. unfold analyzer.most_common.
    exists (List.filter (fun e => snd e =? m)%nat (drop 50 (fold_right analyzer.insert_desc [] c))).
    rewrite <- List.filter_app, take_drop. symmetry. apply sort_desc_stable.
Qed.

Lemma profile_ties_first_seen_witness :
  exists (l c : list (string * nat)),
    analyzer.dict_get (analyzer._analyze
       [analyzer.Document (Some "alpha beta alpha"); analyzer.Document (Some "beta gamma")])
       "most_common_words" = Some (analyzer.PyPairs l) /\
    map fst c = rev (nodup string_dec (rev (analyzer_spec.all_tokens
       [analyzer.Document (Some "alpha beta alpha"); analyzer.Document (Some "beta gamma")]))) /\
    (forall w k, In (w, k) c ->
       k = count_occ string_dec (analyzer_spec.all_tokens
             [analyzer.Document (Some "alpha beta alpha"); analyzer.Document (Some "beta gamma")]) w) /\
    (forall m, exists rest,
       List.filter (fun e => snd e =? m)%nat c =
       (List.filter (fun e => snd e =? m)%nat l ++ rest)%list).
Proof.
  apply (profile_ties_first_seen
    [analyzer.Document (Some "alpha beta alpha"); analyzer.Document (Some "beta gamma")]).
  discriminate.
Defined.

(** ** The generation routes *)

Section RouteWorld.
Import generate.
Context {C : Type} `{Collection C}.

(** The state the shared body ends in. *)
Lemma route_body_world ch build_prompt request (w : World C) :
  let w0 := snd (histories_getitem ch (user_id request) w) in
  let w1 := set_groq_calls (S (groq_calls w)) w0 in
  route_body ch build_prompt request w =
    match groq_service w (groq_calls w) (llm_call_of build_prompt ch request w) with
    | Ok text =>
        (Ok (Response text text "groq" (model request)),
         store_list (ListRef ch (user_id request))
           (append_trim (history_of ch (user_id request) w)
                        (exchange (prompt request) text)) w1)
    | Raise e => (Raise e, w1)
    end.
Proof.
  cbv zeta.
  destruct (histories_getitem_run ch (user_id request) w)
    as (w0 & Hget & Hc & Hs & Hn & Ha & Hl).
  rewrite Hget. cbn [snd].
  unfold route_body, bind, get_groq_client, call_async, ret.
  rewrite Hget. unfold deref, repr_coroutine, await, generate_text.
  cbv beta iota. rewrite Hs, Hn, Ha, Hl.
  unfold llm_call_of, history_of.
  destruct (groq_service w (groq_calls w) _) as [text|e]; [|reflexivity].
  unfold list_append, bind, deref, assign. cbv beta iota.
  rewrite load_set_groq_calls, Hl, load_store_same.
  unfold append_trim. cbv zeta.
  destruct (MAX_HISTORY <? length _)%nat eqn:Hlen.
  - unfold list_pop0, bind, deref, assign, ret. cbv beta iota.
    rewrite load_store_same.
    destruct (load_list _ w ++ [_])%list as [|x l'] eqn:Hl'.
    + apply Nat.ltb_lt in Hlen. simpl in Hlen. unfold MAX_HISTORY in Hlen. lia.
    + cbv beta iota. rewrite store_store. reflexivity.
  - reflexivity.
Qed.

Lemma handle_world ch request (w : World C) :
  let build := match ch with Blog => blog_prompt | Social => social_prompt end in
  let w1 := set_groq_calls (S (groq_calls w)) (snd (histories_getitem ch (user_id request) w)) in
  handle ch request w =
    match groq_service w (groq_calls w) (llm_call_of build ch request w) with
    | Ok text =>
        (Ok (Response text text "groq" (model request)),
         store_list (ListRef ch (user_id request))
           (append_trim (history_of ch (user_id request) w)
                        (exchange (prompt request) text)) w1)
    | Raise e => (Raise (HTTPException 500 (exn_str e)), w1)
    end.
Proof.
  cbv zeta. destruct ch; cbn [handle];
    unfold generate_blog_route, generate_social_route, try_except;
    rewrite route_body_world; cbv zeta;
    destruct (groq_service w (groq_calls w) _); reflexivity.
Qed.

Lemma getitem_frame ch user (w : World C) :
  let w0 := snd (histories_getitem ch user w) in
  collection w0 = collection w /\ uuid_drawn w0 = uuid_drawn w /\
  uuid_source w0 = uuid_source w /\ groq_calls w0 = groq_calls w /\
  groq_service w0 = groq_service w /\ heap_addr w0 = heap_addr w.
Proof.
  cbv zeta. unfold histories_getitem.
  destruct (histories ch w !! user); cbn [snd]; [repeat split|].
  destruct ch; repeat split.
Qed.

Lemma store_list_frame r l (w : World C) :
  collection (store_list r l w) = collection w /\
  uuid_drawn (store_list r l w) = uuid_drawn w /\
  uuid_source (store_list r l w) = uuid_source w /\
  groq_calls (store_list r l w) = groq_calls w /\
  groq_service (store_list r l w) = groq_service w /\
  heap_addr (store_list r l w) = heap_addr w.
Proof. destruct r as [[] u]; repeat split. Qed.
End RouteWorld.

Section ServeFacts.
Import generate.
Context {C : Type} `{Collection C}.

(** What one request leaves of the counters and of the store. *)
Lemma handle_frame ch request (w : World C) :
  let w' := snd (handle ch request w) in
  groq_calls w' = S (groq_calls w) /\
  uuid_drawn w' = uuid_drawn w /\
  collection w' = collection w.
Proof.
  cbv zeta. rewrite handle_world. cbv zeta.
  destruct (getitem_frame ch (user_id request) w) as (Hc & Hu & _ & Hn & _ & _).
  destruct (groq_service w (groq_calls w) _) as [text|e]; cbn [fst snd].
  - destruct (store_list_frame (ListRef ch (user_id request))
                (append_trim (history_of ch (user_id request) w)
                   (exchange (prompt request) text))
                (set_groq_calls (S (groq_calls w))
                   (snd (histories_getitem ch (user_id request) w))))
      as (-> & -> & _ & -> & _ & _).
    cbn [collection uuid_drawn groq_calls set_groq_calls]. repeat split; assumption.
  - cbn [collection uuid_drawn groq_calls set_groq_calls]. repeat split; assumption.
Qed.
End ServeFacts.

Section RouteProperties.
Import generate.

(** X9. Either generation route makes exactly one call of the generation
    service, with the prompt built from the state before the call.  When the
    call returns a text the response carries it as both text and markdown,
    with source "groq" and the request's model; when it raises, the route
    raises HTTP 500 with the exception's message as detail.  In both cases
    the vector store is left as it was and no id is drawn. *)
Theorem route_outcome {C : Type} `{Collection C}
    (ch : generate.channel) (request : generate.GenerateRequest) (w : World C) :
  let build := match ch with
               | generate.Blog => generate.blog_prompt
               | generate.Social => generate.social_prompt
               end in
  let w' := snd (generate.handle ch request w) in
  fst (generate.handle ch request w) =
    match groq_service w (groq_calls w) (generate.llm_call_of build ch request w) with
    | Ok text => Ok (generate.Response text text "groq" (generate.model request))
    | Raise e => Raise (HTTPException 500 (exn_str e))
    end /\
  groq_calls w' = S (groq_calls w) /\
  uuid_drawn w' = uuid_drawn w /\
  collection w' = collection w.
Proof.
  cbv zeta. split; [|apply handle_frame].
  rewrite handle_world. cbv zeta.
  destruct (groq_service w (groq_calls w) _); reflexivity.
Qed.

(** X10. After a request, the history of every user on every channel is as
    before, except that a successful request appends
    ["User: <prompt>\nAI: <text>"] to the requesting user's history on the
    route's own channel (and trims it to 20); blog and social histories, and
    different users, do not touch each other. *)
Theorem route_history_effect {C : Type} `{Collection C}
    (ch : generate.channel) (request : generate.GenerateRequest) (w : World C)
    (ch' : generate.channel) (user : string) :
  generate.history_of ch' user (snd (generate.handle ch request w)) =
    match fst (generate.handle ch request w) with
    | Ok response =>
        if decide (ch = ch' /\ generate.user_id request = user)
        then generate.append_trim (generate.history_of ch' user w)
               (generate.exchange (generate.prompt request) (generate.text response))
        else generate.history_of ch' user w
    | Raise _ => generate.history_of ch' user w
    end.
Proof.
  destruct (fst (generate.handle ch request w)) as [response|e] eqn:E.
  - apply handle_success_histories, E.
  - apply (handle_failure_histories ch request w e E).
Qed.

(** X11. The outcome of a generation route depends on the state only through
    the generation service, the address shown for the un-awaited query, and
    the last five entries of the user's history on that channel: two states
    that agree on these give the same outcome, whatever their vector stores
    and their other histories hold. *)
Theorem route_reads_last_five {C1 C2 : Type} `{Collection C1} `{Collection C2}
    (ch : generate.channel) (request : generate.GenerateRequest)
    (w1 : World C1) (w2 : World C2) :
  groq_service w1 = groq_service w2 ->
  groq_calls w1 = groq_calls w2 ->
  heap_addr w1 = heap_addr w2 ->
  generate.last_n 5 (generate.history_of ch (generate.user_id request) w1) =
  generate.last_n 5 (generate.history_of ch (generate.user_id request) w2) ->
  fst (generate.handle ch request w1) = fst (generate.handle ch request w2).
Proof.
  intros Hs Hn Ha Hh. rewrite !handle_world. cbv zeta.
  unfold generate.llm_call_of. rewrite Hs, Hn, Ha, Hh.
  destruct (groq_service w2 (groq_calls w2) _); reflexivity.
Qed.

Lemma route_reads_last_five_witness :
  let service := fun (_ : nat) (c : llm_call) => Ok (call_prompt c) in
  let request := generate.Request "ada" "Write a post" None None None in
  let w1 := MkWorld ([] : chroma.t)
              {[ "ada" := ["one"; "b"; "c"; "d"; "e"; "f"] ]} ∅
              (fun _ => "") 0%nat service 0%nat "0x7f00" in
  let w2 := MkWorld ([Record_ "doc-1" "stored text" ∅ []] : chroma.t)
              {[ "ada" := ["another"; "b"; "c"; "d"; "e"; "f"]; "bob" := ["x"] ]}
              {[ "ada" := ["social"] ]}
              (fun _ => "") 7%nat service 0%nat "0x7f00" in
  fst (generate.handle generate.Blog request w1) =
  fst (generate.handle generate.Blog request w2).
Proof.
  intros service request w1 w2.
  apply (route_reads_last_five generate.Blog request w1 w2).
  - reflexivity.
  - reflexivity.
  - reflexivity.
  - vm_compute. reflexivity.
Defined.

(** X12. Serving any sequence of generation requests answers each of them
    (with a response whose markdown equals its text, or with HTTP 500),
    makes exactly one call of the generation service per request, and
    leaves the vector store and the id source untouched. *)
Theorem serve_one_call_per_request {C : Type} `{Collection C}
    (requests : list (generate.channel * generate.GenerateRequest)) (w : World C) :
  let outcomes := fst (generate.serve requests w) in
  let w' := snd (generate.serve requests w) in
  length outcomes = length requests /\
  groq_calls w' = (groq_calls w + length requests)%nat /\
  uuid_drawn w' = uuid_drawn w /\
  collection w' = collection w /\
  Forall (fun r => match r with
                   | Ok response => generate.markdown response = generate.text response
                   | Raise (HTTPException status _) => status = 500%Z
                   | Raise _ => False
                   end) outcomes.
Proof.
  revert w. induction requests as [|[ch request] rest IH]; intros w; cbv zeta.
  - cbn. repeat split; try lia. constructor.
  - cbn [generate.serve].
    destruct (handle_frame ch request w) as (Hn & Hu & Hc). cbv zeta in Hn, Hu, Hc.
    pose proof (handle_world ch request w) as Hr. cbv zeta in Hr.
    destruct (generate.handle ch request w) as [r w1]. cbn [fst snd] in *.
    specialize (IH w1). cbv zeta in IH. destruct IH as (Il & In_ & Iu & Ic & If).
    destruct (generate.serve rest w1) as [rs w2]. cbn [fst snd length] in *.
    split; [lia|]. split; [lia|]. split; [congruence|]. split; [congruence|].
    constructor; [|exact If].
    destruct (groq_service w (groq_calls w) _); injection Hr as -> _; reflexivity.
Qed.

End RouteProperties.

(** ** The memory routes and the operations of the memory service *)

(** X13. When [POST /memory/save] succeeds, one record was handed to the
    store under the returned id, with the request's content, and with the
    request's metadata in which ["content_type"] is set to the request's
    content type: a ["content_type"] key inside the request's metadata is
    overridden, every other key is kept. *)
Theorem save_memory_metadata {C : Type} `{Collection C}
    (req : memory_routes.MemorySaveRequest) (w w' : World C) (i : string) :
  memory_routes.save_memory req w = (Ok i, w') ->
  exists r,
    coll_add (collection w) r = Ok (collection w') /\
    rec_id r = i /\
    rec_document r = memory_routes.save_content req /\
    rec_metadata r !! "content_type" = Some (SStr (memory_routes.save_content_type req)) /\
    (forall key, key <> "content_type" ->
       rec_metadata r !! key = default ∅ (memory_routes.save_metadata req) !! key).
Proof.
  unfold memory_routes.save_memory, try_except, await.
  unfold bind at 1. rewrite save_document_run. cbv zeta.
  destruct (coll_add _ _) as [c'|e] eqn:Hadd; [|discriminate].
  unfold ret. intros [= <- <-]. eexists. split; [exact Hadd|].
  cbn [rec_id rec_document rec_metadata default]. unfold memory_routes.with_content_type.
  split; [reflexivity|]. split; [reflexivity|]. split.
  - apply lookup_insert_eq.
  - intros key Hne. apply lookup_insert_ne. congruence.
Qed.

Lemma save_memory_metadata_witness :
  let req := memory_routes.SaveRequest (Some "doc-1") "alpha beta" "article"
               (Some {[ "content_type" := SStr "note"; "lang" := SStr "en" ]}) (Some [1%R]) in
  let w := chroma.world [] (Ok "") in
  let w' := snd (memory_routes.save_memory req w) in
  exists r,
    coll_add (collection w) r = Ok (collection w') /\
    rec_id r = "doc-1" /\
    rec_document r = "alpha beta" /\
    rec_metadata r !! "content_type" = Some (SStr "article") /\
    (forall key, key <> "content_type" ->
       rec_metadata r !! key =
       default ∅ (Some ({[ "content_type" := SStr "note"; "lang" := SStr "en" ]} : metadata))
         !! key).
Proof.
  intros req w w'.
  apply (save_memory_metadata req w w' "doc-1").
  reflexivity.
Defined.

(** X14. The two memory routes turn every exception of the service into
    HTTP 500 with the exception's message as detail, and otherwise return
    the service's result: the id for a save, one result per hit for a
    query.  The query route leaves the state as it was. *)
Theorem memory_routes_outcome {C : Type} `{Collection C} (w : World C) :
  (forall req : memory_routes.MemorySaveRequest,
     fst (memory_routes.save_memory req w) =
       match fst (memory.save_document (memory_routes.save_id req)
                    (memory_routes.save_content req)
                    (Some (memory_routes.with_content_type req))
                    (memory_routes.save_embed req) w) with
       | Ok i => Ok i
       | Raise e => Raise (HTTPException 500 (exn_str e))
       end) /\
  (forall req : memory_routes.MemoryQueryRequest,
     memory_routes.query_memory req w =
       (match coll_query (collection w)
                (memory._simple_text_to_vector (memory_routes.query_text req) memory.EMBED_DIM)
                (memory_routes.query_top_k req) with
        | Ok res =>
            match memory.shape res with
            | Ok hits => Ok (map memory_routes.to_result hits)
            | Raise e => Raise (HTTPException 500 (exn_str e))
            end
        | Raise e => Raise (HTTPException 500 (exn_str e))
        end, w)).
Proof.
  split.
  - intros req. unfold memory_routes.save_memory, try_except, await. unfold bind at 1.
    destruct (memory.save_document _ _ _ _ w) as [[i|e] w1]; reflexivity.
  - intros req. unfold memory_routes.query_memory, try_except, await. unfold bind at 1.
    rewrite query_run.
    destruct (coll_query _ _ _) as [res|e]; [|reflexivity].
    destruct (memory.shape res); reflexivity.
Qed.

(** X15. [build_style_profile_for_user] queries the store once for the fixed
    text "user writing" with the given [top_k], analyses the contents of
    the hits, and leaves the state unchanged; an exception of the query
    propagates.  When the store has no document to return, the result is
    the "no_docs" sentinel. *)
Theorem build_style_profile_outcome {C : Type} `{Collection C} (top_k : Z) (w : World C) :
  analyzer.build_style_profile_for_user top_k w =
    (match coll_query (collection w)
             (memory._simple_text_to_vector "user writing" memory.EMBED_DIM) top_k with
     | Ok res =>
         match memory.shape res with
         | Ok hits => Ok (analyzer._analyze (map analyzer.of_hit hits))
         | Raise e => Raise e
         end
     | Raise e => Raise e
     end, w) /\
  (forall res, coll_query (collection w)
                 (memory._simple_text_to_vector "user writing" memory.EMBED_DIM) top_k = Ok res ->
     memory.shape res = Ok [] ->
     fst (analyzer.build_style_profile_for_user top_k w) =
       Ok [("summary", analyzer.PyStr "no_docs"); ("word_freq", analyzer.PyDict []);
           ("avg_length", analyzer.PyInt 0)]).
Proof.
  assert (E : analyzer.build_style_profile_for_user top_k w =
    (match coll_query (collection w)
             (memory._simple_text_to_vector "user writing" memory.EMBED_DIM) top_k with
     | Ok res =>
         match memory.shape res with
         | Ok hits => Ok (analyzer._analyze (map analyzer.of_hit hits))
         | Raise e => Raise e
         end
     | Raise e => Raise e
     end, w)).
  { unfold analyzer.build_style_profile_for_user, await. unfold bind at 1.
    rewrite query_run.
    destruct (coll_query _ _ _) as [res|e]; [|reflexivity].
    destruct (memory.shape res); reflexivity. }
  split; [exact E|].
  intros res Hq Hs. rewrite E, Hq, Hs. reflexivity.
Qed.

Lemma build_style_profile_outcome_witness :
  fst (analyzer.build_style_profile_for_user 50 (chroma.world [] (Ok ""))) =
    Ok [("summary", analyzer.PyStr "no_docs"); ("word_freq", analyzer.PyDict []);
        ("avg_length", analyzer.PyInt 0)].
Proof.
  apply (proj2 (build_style_profile_outcome 50 (chroma.world [] (Ok "")))
           (Some (RawResult (Some [[]]) [[]] [Some []]))).
  - reflexivity.
  - reflexivity.
Defined.


(** ** [str.strip] and the characters of a string *)

Section Strip.
Import groq_client.

Example characters_example :
  characters ("a" +:+ String "195" (String "169" "") +:+ " b")
  = ["a"; String "195" (String "169" ""); " "; "b"].
Proof. reflexivity. Qed.

Example strip_example :
  strip (String "009" (String "194" (String "160" ("  hi there " +:+ LF)))) = "hi there".
Proof. reflexivity. Qed.

Lemma take_continuation_app (s : string) :
  fst (take_continuation s) +:+ snd (take_continuation s) = s.
Proof.
  induction s as [|c s IH]; cbn [take_continuation]; [reflexivity|].
  destruct (is_continuation c); [|reflexivity].
  destruct (take_continuation s) as [h t]. cbn [fst snd] in *.
  change (String c (h +:+ t) = String c s). f_equal. exact IH.
Qed.

Lemma take_continuation_length (s : string) :
  (String.length (snd (take_continuation s)) <= String.length s)%nat.
Proof.
  induction s as [|c s IH]; cbn [take_continuation]; [cbn; lia|].
  destruct (is_continuation c); [|cbn; lia].
  destruct (take_continuation s) as [h t]. cbn in *. lia.
Qed.

Lemma concat_chars (fuel : nat) : forall s : string,
  (String.length s <= fuel)%nat -> String.concat "" (chars fuel s) = s.
Proof.
  induction fuel as [|fuel IH]; intros s Hlen.
  - destruct s; [reflexivity|cbn in Hlen; lia].
  - destruct s as [|c s]; [reflexivity|]. cbn [chars].
    pose proof (take_continuation_app s) as Happ.
    pose proof (take_continuation_length s) as Hl.
    destruct (take_continuation s) as [h t]. cbn [fst snd] in *.
    assert (String.concat "" (chars fuel t) = t) as Ht by (apply IH; cbn in Hlen; lia).
    destruct (chars fuel t) as [|x xs] eqn:Hc.
    + cbn in Ht. subst t. cbn [String.concat]. rewrite <- Happ.
      f_equal. clear. induction h as [|a h IHh]; [reflexivity|].
      change (String a h = String a (h +:+ "")). f_equal. exact IHh.
    + change (String.concat "" (String c h :: x :: xs))
        with (String c h +:+ "" +:+ String.concat "" (x :: xs)).
      rewrite Ht. change (String c (h +:+ "" +:+ t) = String c s). f_equal. exact Happ.
Qed.

(** Joining the characters of a string gives the string back. *)
Lemma concat_characters (s : string) : String.concat "" (characters s) = s.
Proof. apply concat_chars. reflexivity. Qed.
End Strip.

Section Segments.
Import groq_client groq_spec.

Lemma take_continuation_spec (s : string) :
  all_continuation (fst (take_continuation s)) = true /\
  fresh (snd (take_continuation s)) = true.
Proof.
  induction s as [|c s IH]; cbn [take_continuation]; [split; reflexivity|].
  destruct (is_continuation c) eqn:Hc.
  - destruct (take_continuation s) as [h t]. cbn [fst snd all_continuation] in *.
    rewrite Hc. exact IH.
  - cbn [fst snd fresh all_continuation]. rewrite Hc. split; reflexivity.
Qed.

Lemma chars_head_fresh (fuel : nat) (s : string) :
  fresh s = true ->
  match chars fuel s with [] => true | c' :: _ => fresh c' end = true.
Proof.
  destruct fuel, s as [|a s]; cbn [chars]; try reflexivity.
  intros Hf. destruct (take_continuation s). exact Hf.
Qed.

Lemma chars_segmented (fuel : nat) : forall s, segmented (chars fuel s) = true.
Proof.
  induction fuel as [|fuel IH]; intros s; [reflexivity|].
  destruct s as [|a s]; [reflexivity|]. cbn [chars].
  pose proof (take_continuation_spec s) as [Hh Ht].
  destruct (take_continuation s) as [h t]. cbn [fst snd] in *.
  cbn [segmented is_char]. rewrite Hh, IH, (chars_head_fresh fuel t Ht). reflexivity.
Qed.

Lemma take_continuation_join (h rest : string) :
  all_continuation h = true -> fresh rest = true ->
  take_continuation (h +:+ rest) = (h, rest).
Proof.
  intros Hh Hr. induction h as [|a h IH].
  - change ("" +:+ rest) with rest. destruct rest as [|b rest]; [reflexivity|].
    cbn [take_continuation]. cbn [fresh] in Hr.
    destruct (is_continuation b); [discriminate|reflexivity].
  - cbn [all_continuation] in Hh. apply andb_true_iff in Hh as [Ha Hh].
    change (String a h +:+ rest) with (String a (h +:+ rest)).
    cbn [take_continuation]. rewrite Ha, (IH Hh). reflexivity.
Qed.

Lemma concat_fresh (cs : list string) :
  segmented cs = true ->
  match cs with [] => true | c' :: _ => fresh c' end = true ->
  fresh (String.concat "" cs) = true.
Proof.
  destruct cs as [|c cs]; [reflexivity|]. intros Hs Hf.
  cbn [segmented] in Hs. apply andb_true_iff in Hs as [Hs _].
  apply andb_true_iff in Hs as [Hc _].
  destruct c as [|a h]; [discriminate|].
  destruct cs as [|c' cs]; [exact Hf|].
  change (String.concat "" (String a h :: c' :: cs))
    with (String a (h +:+ "" +:+ String.concat "" (c' :: cs))).
  exact Hf.
Qed.

Lemma string_length_app (a b : string) :
  String.length (a +:+ b) = (String.length a + String.length b)%nat.
Proof.
  induction a as [|c a IH]; [reflexivity|].
  change (String c a +:+ b) with (String c (a +:+ b)). cbn [String.length]. lia.
Qed.

(** Characters that were cut from one string are cut the same way out of
    their concatenation. *)
Lemma chars_concat (cs : list string) : forall fuel,
  segmented cs = true ->
  (String.length (String.concat "" cs) <= fuel)%nat ->
  chars fuel (String.concat "" cs) = cs.
Proof.
  induction cs as [|c cs IH]; intros fuel Hs Hlen.
  - destruct fuel; reflexivity.
  - cbn [segmented] in Hs. apply andb_true_iff in Hs as [Hs Hrest].
    apply andb_true_iff in Hs as [Hc Hf].
    destruct c as [|a h]; [discriminate|]. cbn [is_char] in Hc.
    assert (String.concat "" (String a h :: cs) = String a (h +:+ String.concat "" cs)) as E.
    { destruct cs as [|c' cs']; cbn [String.concat].
      - f_equal. clear. induction h as [|b h IHh]; [reflexivity|].
        change (String b h = String b (h +:+ "")). f_equal. exact IHh.
      - reflexivity. }
    rewrite E in *. cbn [String.length] in Hlen. rewrite string_length_app in Hlen.
    destruct fuel as [|fuel]; [lia|]. cbn [chars].
    rewrite (take_continuation_join h _ Hc (concat_fresh cs Hrest Hf)).
    rewrite IH; [reflexivity|exact Hrest|lia].
Qed.

Lemma characters_concat (cs : list string) :
  segmented cs = true -> characters (String.concat "" cs) = cs.
Proof. intros Hs. apply chars_concat; [exact Hs|reflexivity]. Qed.

Lemma segmented_tail (c : string) (cs : list string) :
  segmented (c :: cs) = true -> segmented cs = true.
Proof. cbn [segmented]. intros Hs. apply andb_true_iff in Hs as [_ Hs]. exact Hs. Qed.

Lemma segmented_drop_spaces (cs : list string) :
  segmented cs = true -> segmented (drop_spaces cs) = true.
Proof.
  induction cs as [|c cs IH]; intros Hs; [reflexivity|]. cbn [drop_spaces].
  destruct (is_space_char c); [apply IH, (segmented_tail c), Hs|exact Hs].
Qed.

Lemma segmented_prefix (l1 l2 : list string) :
  segmented (l1 ++ l2) = true -> segmented l1 = true.
Proof.
  induction l1 as [|c l1 IH]; intros Hs; [reflexivity|].
  change ((c :: l1) ++ l2)%list with (c :: (l1 ++ l2))%list in Hs.
  cbn [segmented] in *. apply andb_true_iff in Hs as [Hs Hrest].
  apply andb_true_iff in Hs as [Hc Hf]. rewrite Hc, (IH Hrest).
  destruct l1 as [|c' l1]; [reflexivity|]. cbn in Hf. rewrite Hf. reflexivity.
Qed.

Lemma drop_spaces_suffix (cs : list string) :
  exists pre, cs = (pre ++ drop_spaces cs)%list.
Proof.
  induction cs as [|c cs [pre IH]]; [exists []; reflexivity|]. cbn [drop_spaces].
  destruct (is_space_char c).
  - exists (c :: pre). cbn. f_equal. exact IH.
  - exists []. reflexivity.
Qed.

Lemma drop_spaces_head (cs : list string) (c : string) :
  head (drop_spaces cs) = Some c -> is_space_char c = false.
Proof.
  induction cs as [|x cs IH]; cbn [drop_spaces]; [discriminate|].
  destruct (is_space_char x) eqn:E; [exact IH|]. cbn. intros [= <-]. exact E.
Qed.

Lemma drop_spaces_fixed (cs : list string) :
  (forall c, head cs = Some c -> is_space_char c = false) -> drop_spaces cs = cs.
Proof.
  destruct cs as [|x cs]; [reflexivity|]. intros Hh. cbn [drop_spaces].
  rewrite (Hh x eq_refl). reflexivity.
Qed.

Lemma trimmed_segmented (s : string) : segmented (trimmed s) = true.
Proof.
  unfold trimmed.
  pose proof (segmented_drop_spaces _ (chars_segmented (String.length s) s)) as Hs.
  fold (characters s) in Hs.
  destruct (drop_spaces_suffix (rev (drop_spaces (characters s)))) as [pre Hpre].
  apply (f_equal (@rev string)) in Hpre. rewrite rev_involutive, rev_app_distr in Hpre.
  rewrite Hpre in Hs. apply segmented_prefix in Hs. exact Hs.
Qed.

Lemma characters_strip (s : string) : characters (strip s) = trimmed s.
Proof. unfold strip. apply characters_concat, trimmed_segmented. Qed.

Lemma last_rev_head {A} (l : list A) : last (rev l) = head l.
Proof.
  destruct l as [|x l]; [reflexivity|]. cbn [rev].
  rewrite last_snoc. reflexivity.
Qed.

Lemma head_rev_last {A} (l : list A) : head (rev l) = last l.
Proof. rewrite <- (rev_involutive l) at 2. symmetry. apply last_rev_head. Qed.

Lemma trimmed_last (s : string) (c : string) :
  last (trimmed s) = Some c -> is_space_char c = false.
Proof. unfold trimmed. rewrite last_rev_head. apply drop_spaces_head. Qed.

Lemma trimmed_head (s : string) (c : string) :
  head (trimmed s) = Some c -> is_space_char c = false.
Proof.
  unfold trimmed. intros Hh.
  set (l := drop_spaces (characters s)) in *.
  destruct (drop_spaces_suffix (rev l)) as [pre Hpre].
  apply (f_equal (@rev string)) in Hpre. rewrite rev_involutive, rev_app_distr in Hpre.
  destruct (rev (drop_spaces (rev l))) as [|x xs] eqn:E; [discriminate|].
  cbn in Hh. injection Hh as ->.
  apply (drop_spaces_head (characters s)). fold l. rewrite Hpre. reflexivity.
Qed.

Lemma strip_stripped (s : string) : stripped (strip s) /\ strip (strip s) = strip s.
Proof.
  assert (Hh := trimmed_head s). assert (Hl := trimmed_last s).
  split.
  - unfold stripped, first_char, last_char. rewrite characters_strip. split; assumption.
  - unfold strip at 1. rewrite characters_strip.
    rewrite (drop_spaces_fixed (trimmed s)) by exact Hh.
    rewrite (drop_spaces_fixed (rev (trimmed s))).
    + rewrite rev_involutive. reflexivity.
    + intros c. rewrite head_rev_last. apply Hl.
Qed.
End Segments.

(** ** The response handling of [generate_text] *)

Section ClientFacts.
Import groq_client groq_spec.
Variable repr : json -> string.

Lemma conclude_returns (data text : json) (t : string) :
  conclude repr data text = Returns t -> exists s, t = strip s.
Proof. destruct text; cbn; try discriminate. intros [= <-]. eexists. reflexivity. Qed.

Lemma extract_returns (data : json) (t : string) :
  extract repr data = Returns t -> exists s, t = strip s.
Proof.
  unfold extract. destruct (chat_content data) as [v|]; cbn [then_].
  - apply conclude_returns.
  - destruct (fallback repr data) as [v|e]; cbn [then_]; [|discriminate].
    apply conclude_returns.
Qed.

Lemma generate_text_returns (post : http_result) (t : string) :
  generate_text repr post = Returns t -> exists s, t = strip s.
Proof.
  destruct post as [exc|status text body]; cbn [generate_text]; [discriminate|].
  destruct (400 <=? status)%nat; [discriminate|].
  destruct body as [data|]; [|discriminate]. apply extract_returns.
Qed.

Lemma characters_nonempty (a : ascii) (s : string) : characters (String a s) <> [].
Proof.
  unfold characters. cbn [String.length chars].
  destruct (take_continuation s). discriminate.
Qed.

Lemma getitem_0_no_index_error (v : json) :
  nonempty v = Returns true -> getitem_0 v <> Raises IndexError.
Proof.
  destruct v as [| | | |s|l|d]; cbn; try discriminate.
  - destruct s as [|a s]; [discriminate|]. intros _.
    destruct (characters (String a s)) eqn:E; [|discriminate].
    exfalso. exact (characters_nonempty a s E).
  - destruct l; discriminate.
Qed.

Lemma fallback_no_index_error (data : json) : fallback repr data <> Raises IndexError.
Proof.
  unfold fallback. destruct data as [| | | |s|l|d]; cbn [py_in then_]; try discriminate.
  - destruct (contains "choices" s); cbn [getitem_key then_]; [discriminate|].
    destruct (contains "output" s); cbn [getitem_key then_]; [discriminate|].
    destruct (contains "text" s); cbn [getitem_key then_]; [discriminate|].
    destruct (contains "generated_text" s); cbn [getitem_key then_]; discriminate.
  - destruct (existsb _ l); cbn [getitem_key then_]; [discriminate|].
    destruct (existsb _ l); cbn [getitem_key then_]; [discriminate|].
    destruct (existsb _ l); cbn [getitem_key then_]; [discriminate|].
    destruct (existsb _ l); cbn [getitem_key then_]; discriminate.
  - assert (Helse :
      (let! has_output := Returns (match member d "output" with Some _ => true | None => false end) in
       if has_output
       then (let! output := getitem_key (JDict d) "output" in
             let! joined := join_output repr output in
             Returns (JStr joined))
       else
         let! has_text := py_in "text" (JDict d) in
         if has_text then getitem_key (JDict d) "text"
         else
           let! has_generated := py_in "generated_text" (JDict d) in
           if has_generated then getitem_key (JDict d) "generated_text"
           else Returns JNull) <> Raises IndexError).
    { cbn [then_ py_in getitem_key].
      destruct (member d "output") as [o|]; cbn [then_].
      - destruct (join_output repr o) eqn:Hj; cbn [then_]; [discriminate|].
        destruct o; cbn in Hj; try discriminate; injection Hj as <-; discriminate.
      - destruct (member d "text"); cbn [then_]; [discriminate|].
        destruct (member d "generated_text"); cbn [then_]; discriminate. }
    cbn [getitem_key]. destruct (member d "choices") as [choices|]; cbn [then_]; [|exact Helse].
    destruct (nonempty choices) as [[]|e] eqn:Hn; cbn [then_].
    + pose proof (getitem_0_no_index_error choices Hn) as H0.
      destruct (getitem_0 choices) as [first|e]; cbn [then_]; [|congruence].
      destruct first; cbn [dict_get then_]; try discriminate.
      destruct (truthy _); discriminate.
    + exact Helse.
    + destruct choices; cbn in Hn; try discriminate; injection Hn as <-; discriminate.
Qed.
End ClientFacts.

Section ClientProperties.
Import groq_client groq_spec.

(** X17. Whatever the response looks like, a text returned by
    [generate_text] has no white space at either end, and stripping it
    again changes nothing. *)
Theorem generate_text_result_is_stripped
    (repr : json -> string) (post : http_result) (t : string) :
  generate_text repr post = Returns t ->
  stripped t /\ strip t = t.
Proof.
  intros Hr. destruct (generate_text_returns repr post t Hr) as [s ->].
  apply strip_stripped.
Qed.

Lemma generate_text_result_is_stripped_witness :
  stripped "hello world" /\ strip "hello world" = "hello world".
Proof.
  apply (generate_text_result_is_stripped (fun _ => "")
           (HttpResponse 200 ""
              (Some (JDict [("choices",
                 JList [JDict [("message", JDict [("content", JStr "  hello world ")])]])])))).
  reflexivity.
Defined.

(** X18. For a status below 400 and a body whose
    ["choices"][0]["message"]["content"] is a string, [generate_text]
    returns that string stripped, whatever else the body holds. *)
Theorem generate_text_chat_shape
    (repr : json -> string) (status : nat) (text : string)
    (d first message : list (string * json)) (rest : list json) (content : string) :
  (status < 400)%nat ->
  member d "choices" = Some (JList (JDict first :: rest)) ->
  member first "message" = Some (JDict message) ->
  member message "content" = Some (JStr content) ->
  generate_text repr (HttpResponse status text (Some (JDict d))) = Returns (strip content).
Proof.
  intros Hs Hc Hm Hcont. cbn [generate_text].
  apply Nat.ltb_lt in Hs. rewrite Nat.leb_antisym, Hs. cbn [negb].
  unfold extract, chat_content. cbn [getitem_key then_]. rewrite Hc.
  cbn [getitem_0 then_ getitem_key]. rewrite Hm. cbn [then_ getitem_key]. rewrite Hcont.
  reflexivity.
Qed.

Lemma generate_text_chat_shape_witness :
  generate_text (fun _ => "") (HttpResponse 200 "raw body"
    (Some (JDict [("text", JStr "ignored");
                  ("choices", JList [JDict [("text", JStr "ignored too");
                                            ("message", JDict [("role", JStr "assistant");
                                                               ("content", JStr " Hi! ")])]])])))
  = Returns (strip " Hi! ").
Proof.
  apply (generate_text_chat_shape (fun _ => "") 200 "raw body"
           [("text", JStr "ignored");
            ("choices", JList [JDict [("text", JStr "ignored too");
                                      ("message", JDict [("role", JStr "assistant");
                                                         ("content", JStr " Hi! ")])]])]
           [("text", JStr "ignored too");
            ("message", JDict [("role", JStr "assistant"); ("content", JStr " Hi! ")])]
           [("role", JStr "assistant"); ("content", JStr " Hi! ")] [] " Hi! ").
  - lia.
  - reflexivity.
  - reflexivity.
  - reflexivity.
Defined.

(** X19. For a status below 400 and a JSON object without ["choices"], the
    text is taken from ["output"] (its items joined by spaces), else from
    ["text"], else from ["generated_text"], in this order of precedence;
    with none of the keys the call raises [GroqClientError] with the body
    in the message. *)
Theorem generate_text_other_shapes
    (repr : json -> string) (status : nat) (text : string) (d : list (string * json)) :
  (status < 400)%nat ->
  member d "choices" = None ->
  generate_text repr (HttpResponse status text (Some (JDict d))) =
    match member d "output" with
    | Some output =>
        match join_output repr output with
        | Returns joined => Returns (strip joined)
        | Raises e => Raises e
        end
    | None =>
        match member d "text" with
        | Some v => conclude repr (JDict d) v
        | None =>
            match member d "generated_text" with
            | Some v => conclude repr (JDict d) v
            | None => Raises (GroqClientError
                        ("Could not extract assistant content from response: " +:+ repr (JDict d)))
            end
        end
    end.
Proof.
  intros Hs Hc. cbn [generate_text].
  apply Nat.ltb_lt in Hs. rewrite Nat.leb_antisym, Hs. cbn [negb].
  unfold extract, chat_content, fallback. cbn [getitem_key then_ py_in]. rewrite Hc.
  cbn [then_].
  destruct (member d "output") as [output|]; cbn [then_].
  - destruct (join_output repr output); reflexivity.
  - destruct (member d "text") as [v|]; cbn [then_]; [reflexivity|].
    destruct (member d "generated_text") as [v|]; cbn [then_]; reflexivity.
Qed.

Lemma generate_text_other_shapes_witness :
  generate_text (fun _ => "") (HttpResponse 200 ""
    (Some (JDict [("generated_text", JStr "third"); ("text", JStr "second");
                  ("output", JList [JStr "first"; JStr "choice"])])))
  = Returns "first choice".
Proof.
  rewrite (generate_text_other_shapes (fun _ => "") 200 ""
             [("generated_text", JStr "third"); ("text", JStr "second");
              ("output", JList [JStr "first"; JStr "choice"])]).
  - reflexivity.
  - lia.
  - reflexivity.
Defined.

(** X20. For a status below 400 and a body whose first choice is an object
    without ["message"], the text is the choice's ["text"] when that is
    truthy and its ["output"] otherwise (an empty ["text"] falls through to
    ["output"]). *)
Theorem generate_text_legacy_choice
    (repr : json -> string) (status : nat) (text : string)
    (d first : list (string * json)) (rest : list json) :
  (status < 400)%nat ->
  member d "choices" = Some (JList (JDict first :: rest)) ->
  member first "message" = None ->
  generate_text repr (HttpResponse status text (Some (JDict d))) =
    conclude repr (JDict d)
      (if truthy (default JNull (member first "text"))
       then default JNull (member first "text")
       else default JNull (member first "output")).
Proof.
  intros Hs Hc Hm. cbn [generate_text].
  apply Nat.ltb_lt in Hs. rewrite Nat.leb_antisym, Hs. cbn [negb].
  unfold extract, chat_content, fallback. cbn [getitem_key then_ py_in]. rewrite Hc.
  cbn [getitem_0 then_ getitem_key nonempty dict_get]. rewrite Hm. cbn [then_].
  destruct (truthy (default JNull (member first "text"))); reflexivity.
Qed.

Lemma generate_text_legacy_choice_witness :
  generate_text (fun _ => "") (HttpResponse 200 ""
    (Some (JDict [("choices", JList [JDict [("text", JStr ""); ("output", JStr " done ")]])])))
  = Returns "done".
Proof.
  rewrite (generate_text_legacy_choice (fun _ => "") 200 ""
             [("choices", JList [JDict [("text", JStr ""); ("output", JStr " done ")]])]
             [("text", JStr ""); ("output", JStr " done ")] []).
  - reflexivity.
  - lia.
  - reflexivity.
  - reflexivity.
Defined.

(** X21. How [generate_text] fails: a status of 400 or more raises
    [GroqClientError] with the status and the body text, whatever the body;
    below 400, a body that is not JSON raises the decoder's error, a body
    that is null, a boolean or a number raises [TypeError], a ["choices"]
    that is a non-empty object raises [KeyError]; and [IndexError] never
    escapes. *)
Theorem generate_text_failures
    (repr : json -> string) (status : nat) (text : string) :
  ((400 <= status)%nat ->
   forall body, generate_text repr (HttpResponse status text body) =
     Raises (GroqClientError ("Groq API error " +:+ str_nat status +:+ ": " +:+ text))) /\
  ((status < 400)%nat ->
   (generate_text repr (HttpResponse status text None) = Raises JSONDecodeError) /\
   (forall data, is_plain data = true ->
      generate_text repr (HttpResponse status text (Some data)) = Raises TypeError) /\
   (forall d x xs, member d "choices" = Some (JDict (x :: xs)) ->
      generate_text repr (HttpResponse status text (Some (JDict d))) = Raises KeyError) /\
   (forall body, generate_text repr (HttpResponse status text body) <> Raises IndexError)).
Proof.
  split.
  - intros Hs body. cbn [generate_text]. apply Nat.leb_le in Hs. rewrite Hs. reflexivity.
  - intros Hs. apply Nat.ltb_lt in Hs.
    assert ((400 <=? status)%nat = false) as Hf by (rewrite Nat.leb_antisym, Hs; reflexivity).
    split; [cbn [generate_text]; rewrite Hf; reflexivity|]. split; [|split].
    + intros data Hp. cbn [generate_text]. rewrite Hf.
      destruct data; try discriminate Hp; reflexivity.
    + intros d x xs Hc. cbn [generate_text]. rewrite Hf.
      unfold extract, chat_content, fallback. cbn [getitem_key then_ py_in]. rewrite Hc.
      reflexivity.
    + intros body. cbn [generate_text]. rewrite Hf.
      destruct body as [data|]; [|discriminate].
      unfold extract. destruct (chat_content data) as [v|]; cbn [then_].
      { destruct v; discriminate. }
      pose proof (fallback_no_index_error repr data) as Hfb.
      destruct (fallback repr data) as [v|e]; cbn [then_]; [|congruence].
      destruct v; discriminate.
Qed.
End ClientProperties.

Lemma generate_text_failures_witness :
  groq_client.generate_text (fun _ => "")
    (groq_client.HttpResponse 503 "overloaded"
       (Some (groq_client.JDict [("text", groq_client.JStr "fine")])))
  = groq_client.Raises (groq_client.GroqClientError "Groq API error 503: overloaded") /\
  groq_client.generate_text (fun _ => "")
    (groq_client.HttpResponse 200 "null" (Some groq_client.JNull))
  = groq_client.Raises groq_client.TypeError.
Proof.
  split.
  - apply (proj1 (generate_text_failures (fun _ => "") 503 "overloaded")). lia.
  - apply (proj2 (generate_text_failures (fun _ => "") 200 "null")); [lia|reflexivity].
Defined.

(** ** Short-form generation *)

Section GeneratorFacts.
Import generator.
Context {C : Type} `{Collection C}.
Variable compose :
  string -> list memory.hit -> list (string * analyzer.pyobj) ->
  list (string * string) -> string.

Lemma set_groq_calls_twice (a b : nat) (w : World C) :
  set_groq_calls a (set_groq_calls b w) = set_groq_calls a w.
Proof. reflexivity. Qed.

Lemma social_post_run user_prompt platform model contexts profile (i : nat) (w : World C) :
  social_post compose user_prompt platform model contexts profile tt i w =
    (Ok (post_text i (groq_service w (groq_calls w)
                        (social_call compose user_prompt platform model contexts profile i))),
     set_groq_calls (S (groq_calls w)) w).
Proof.
  unfold social_post, try_except, await, generate.generate_text, ret.
  destruct (groq_service w (groq_calls w) _); reflexivity.
Qed.

Lemma social_posts_run user_prompt platform model contexts profile (n : nat) :
  forall (i : nat) (w : World C),
  social_posts compose user_prompt platform model contexts profile tt i n w =
    (Ok (map (fun k => post_text (i + k)
                (groq_service w (groq_calls w + k)
                   (social_call compose user_prompt platform model contexts profile (i + k))))
             (seq 0 n)),
     set_groq_calls (groq_calls w + n) w).
Proof.
  induction n as [|n IH]; intros i w.
  - cbn [social_posts seq map]. unfold ret. rewrite Nat.add_0_r.
    destruct w; reflexivity.
  - cbn [social_posts]. unfold bind at 1. rewrite social_post_run.
    unfold bind at 1. rewrite IH. unfold ret.
    cbn [groq_calls groq_service set_groq_calls]. rewrite set_groq_calls_twice.
    f_equal.
    + f_equal. cbn [seq map]. rewrite !Nat.add_0_r. f_equal.
      rewrite <- seq_shift, map_map. apply map_ext. intros k.
      replace (S i + k)%nat with (i + S k)%nat by lia.
      replace (S (groq_calls w) + k)%nat with (groq_calls w + S k)%nat by lia.
      reflexivity.
    + f_equal. lia.
Qed.
End GeneratorFacts.

(** X22. [generate_social] queries the store once (top 6), then makes
    exactly [count] generation calls (none for a count of zero or less) and
    returns exactly that many posts: post [i] is the text of call [i], or
    ["[ERROR generating post <i+1>: <e>]"] when that call raised, so one
    failed call does not stop the batch.  A failing query propagates before
    any generation call.  The reported model is the request's, or the
    client's when the request has none or an empty one. *)
Theorem generate_social_batch {C : Type} `{Collection C}
    (compose : string -> list memory.hit -> list (string * analyzer.pyobj) ->
               list (string * string) -> string)
    (client_model user_prompt : string) (count : Z) (platform : string)
    (model : option string) (w : World C) :
  generator.generate_social compose client_model user_prompt count platform model w =
    match coll_query (collection w)
            (memory._simple_text_to_vector user_prompt memory.EMBED_DIM) 6 with
    | Raise e => (Raise e, w)
    | Ok res =>
        match memory.shape res with
        | Raise e => (Raise e, w)
        | Ok contexts =>
            let profile := analyzer._analyze (map analyzer.of_hit contexts) in
            let posts :=
              map (fun i => generator.post_text i
                     (groq_service w (groq_calls w + i)
                        (generator.social_call compose user_prompt platform model
                                               contexts profile i)))
                  (seq 0 (Z.to_nat count)) in
            (Ok (generator.MkSocialResult
                   (String.concat (LF +:+ LF) posts)
                   (String.concat (LF +:+ LF) (map (fun r => "- " +:+ r) posts))
                   count platform (generator.model_or_default client_model model)),
             set_groq_calls (groq_calls w + Z.to_nat count) w)
        end
    end.
Proof.
  unfold generator.generate_social, generator._retrieve_context, await.
  unfold bind at 1. rewrite query_run.
  destruct (coll_query _ _ _) as [res|e]; [|reflexivity].
  destruct (memory.shape res) as [contexts|e]; [|reflexivity].
  unfold bind at 1, analyzer.analyze_documents, ret at 1.
  unfold bind at 1, generate.get_groq_client, ret at 1.
  unfold bind at 1. rewrite social_posts_run. reflexivity.
Qed.
